(** * GCS-to-BigQuery load handler (main.py): shallow embedding and properties

    The handler [load_data_to_bigquery] reacts to one storage notification,
    derives a destination table from the object name, submits a BigQuery load
    job, waits for it, and finally writes one audit row through
    [log_event_to_audit_table].

    Python dictionaries are finite maps ([gmap]), the BigQuery client is a
    record of responses (each call either returns or raises), and the
    handler runs in a small monad that threads the mutable
    [event_metadata] dictionary, accumulates the externally visible effects
    (client calls and log lines) and propagates raised exceptions. *)

From Stdlib Require Import Ascii String.
From stdpp Require Import base option list strings gmap pretty.

Set Default Proof Using "Type".
Local Open Scope string_scope.
Local Open Scope list_scope.

(** ** Python strings *)

Module PyStr.

(** [s.split(sep)] for a one-character separator: every occurrence of
    [sep] cuts, so the result has one more element than there are
    separators (and is never empty). *)
Fixpoint split (sep : ascii) (s : string) : list string :=
  match s with
  | EmptyString => [EmptyString]
  | String c s' =>
      if Ascii.eqb c sep then EmptyString :: split sep s'
      else match split sep s' with
           | [] => [String c EmptyString]
           | seg :: segs => String c seg :: segs
           end
  end.

(** [s.replace(old, new)] for one-character [old] and [new]. *)
Fixpoint replace (old new : ascii) (s : string) : string :=
  match s with
  | EmptyString => EmptyString
  | String c s' => String (if Ascii.eqb c old then new else c) (replace old new s')
  end.

(** [c in s]. *)
Fixpoint contains (c : ascii) (s : string) : bool :=
  match s with
  | EmptyString => false
  | String c' s' => Ascii.eqb c' c || contains c s'
  end.

(** The substring of [s] before the first occurrence of [c] (all of [s]
    when [c] does not occur). *)
Fixpoint before_first (c : ascii) (s : string) : string :=
  match s with
  | EmptyString => EmptyString
  | String c' s' => if Ascii.eqb c' c then EmptyString else String c' (before_first c s')
  end.

(** How an f-string renders a value that is a [str] or [None]. *)
Definition fmt (v : option string) : string := default "None" v.

(** [str(l)] of a list whose elements have the given [repr]s. *)
Fixpoint join (sep : string) (l : list string) : string :=
  match l with
  | [] => EmptyString
  | [x] => x
  | x :: l' => x +:+ sep +:+ join sep l'
  end.

Definition str_list (reprs : list string) : string := "[" +:+ join ", " reprs +:+ "]".

End PyStr.

(** ** Python values, exceptions and the BigQuery client *)

(** The values stored in [event_metadata]: strings and [None]. *)
Inductive pyval :=
  | PNone
  | PStr (s : string).

(** A raised exception object: its class name, whether that class derives
    from [Exception] (as opposed to deriving from [BaseException] only,
    like [KeyboardInterrupt] or [SystemExit]), and [str(e)]. *)
Record PyExc := mkExc {
  exc_type : string;
  is_Exception : bool;
  exc_str : string
}.

Definition KeyError (key : string) : PyExc := mkExc "KeyError" true ("'" +:+ key +:+ "'").
Definition IndexError : PyExc := mkExc "IndexError" true "list index out of range".

(** A call either returns a value or raises. *)
Inductive result (A : Type) :=
  | Ret (a : A)
  | Raise (e : PyExc).
Arguments Ret {A} a.
Arguments Raise {A} e.

Inductive WriteDisposition :=
  | WRITE_APPEND
  | WRITE_TRUNCATE
  | WRITE_EMPTY.

Record LoadJobConfig := {
  skip_leading_rows : Z;
  autodetect : bool;
  field_delimiter : string;
  allow_quoted_newlines : bool;
  quote_character : string;
  write_disposition : WriteDisposition
}.

(** One entry of an error list reported by BigQuery, kept as an opaque
    object of which only [repr] is observed. *)
Record ErrorEntry := { repr : string }.

(** What [load_table_from_uri] hands back: [result()] either returns or
    raises, and [errors] is [None] or a list. *)
Record LoadJob := {
  job_id : string;
  job_result : result unit;
  job_errors : option (list ErrorEntry)
}.

Record Table := { num_rows : N }.

(** The responses of [bq_client], one field per method the module calls. *)
Record Client := {
  load_table_from_uri : string → string → LoadJobConfig → result LoadJob;
  get_table : string → result Table;
  insert_rows_json : string → list (gmap string pyval) → result (list ErrorEntry)
}.

(** The event context object. *)
Record Context := {
  event_id : string;
  timestamp : string;
  event_type : string;
  resource : gmap string string
}.

(** Truth value of [load_job.errors] and of a list. *)
Definition truthy_list {A} (l : list A) : bool :=
  match l with [] => false | _ :: _ => true end.

Definition truthy (o : option (list ErrorEntry)) : bool :=
  match o with None => false | Some l => truthy_list l end.

Definition str_errors (l : list ErrorEntry) : string := PyStr.str_list (repr <$> l).

Definition str_job_errors (o : option (list ErrorEntry)) : string :=
  match o with None => "None" | Some l => str_errors l end.

(** ** Effects and the handler monad *)

(** Externally visible actions, in program order. *)
Inductive Effect :=
  | LoggingInfo (msg : string)
  | LoggingError (msg : string)
  | LoadTableFromUri (uri table_ref : string) (job_config : LoadJobConfig)
  | JobResult (job : string)
  | GetTable (table_ref : string)
  | InsertRowsJson (table_ref : string) (rows : list (gmap string pyval)).

(** The result of running a piece of the handler: how it ended, the
    [event_metadata] dictionary as it stands, and the effects performed. *)
Record Run (A : Type) := mkRun {
  outcome : result A;
  metadata : gmap string pyval;
  effects : list Effect
}.
Arguments mkRun {A} outcome metadata effects.
Arguments outcome {A} r.
Arguments metadata {A} r.
Arguments effects {A} r.

Definition M (A : Type) : Type := gmap string pyval → Run A.

Definition ret {A} (a : A) : M A := λ σ, mkRun (Ret a) σ [].

Definition bind {A B} (m : M A) (f : A → M B) : M B := λ σ,
  let r1 := m σ in
  match outcome r1 with
  | Ret a =>
      let r2 := f a (metadata r1) in
      mkRun (outcome r2) (metadata r2) (effects r1 ++ effects r2)
  | Raise e => mkRun (Raise e) (metadata r1) (effects r1)
  end.

#[export] Instance M_ret : MRet M := @ret.
#[export] Instance M_bind : MBind M := λ A B f m, bind m f.

(** [raise e]. *)
Definition raise {A} (e : PyExc) : M A := λ σ, mkRun (Raise e) σ [].

(** Lift a pure computation that may raise. *)
Definition lift {A} (r : result A) : M A := λ σ, mkRun r σ [].

(** An external call: the effect is recorded, then the response is taken. *)
Definition call {A} (ev : Effect) (response : result A) : M A := λ σ, mkRun response σ [ev].

Definition logging_info (msg : string) : M unit := λ σ, mkRun (Ret ()) σ [LoggingInfo msg].
Definition logging_error (msg : string) : M unit := λ σ, mkRun (Ret ()) σ [LoggingError msg].

(** [event_metadata = d], [event_metadata[k] = v] and reading the variable. *)
Definition assign (d : gmap string pyval) : M unit := λ _, mkRun (Ret ()) d [].
Definition setitem (k : string) (v : pyval) : M unit := λ σ, mkRun (Ret ()) (<[k:=v]> σ) [].
Definition read : M (gmap string pyval) := λ σ, mkRun (Ret σ) σ [].

(** [d[k]] on a dictionary and [l[0]] on a list. *)
Definition getitem (d : gmap string string) (k : string) : result string :=
  match d !! k with
  | Some v => Ret v
  | None => Raise (KeyError k)
  end.

Definition index0 (l : list string) : result string :=
  match l with
  | x :: _ => Ret x
  | [] => Raise IndexError
  end.

(** [try: body  except Exception as e: handler e].
    The [except] clause only takes exceptions whose class derives from
    [Exception]; any other exception passes through. *)
Definition try_except {A} (body : M A) (handler : PyExc → M A) : M A := λ σ,
  let r1 := body σ in
  match outcome r1 with
  | Ret _ => r1
  | Raise e =>
      if is_Exception e then
        let rh := handler e (metadata r1) in
        mkRun (outcome rh) (metadata rh) (effects r1 ++ effects rh)
      else r1
  end.

(** [try: body  finally: final].
    [final] runs on every way out of [body]; an exception raised by
    [final] replaces whatever was in flight, otherwise the outcome of
    [body] stands. *)
Definition try_finally {A} (body : M A) (final : M unit) : M A := λ σ,
  let r2 := body σ in
  let r3 := final (metadata r2) in
  mkRun (match outcome r3 with
         | Ret _ => outcome r2
         | Raise e' => Raise e'
         end)
        (metadata r3) (effects r2 ++ effects r3).

(** [try: body  except Exception as e: handler e  finally: final], which
    is the [try ... except] statement nested in a [try ... finally]. *)
Definition try_except_finally {A} (body : M A) (handler : PyExc → M A) (final : M unit)
  : M A :=
  try_finally (try_except body handler) final.

(** ** The module main.py *)

(** [os.getenv(k)]: the value, or [None] when the variable is not set. *)
Definition getenv (environ : gmap string string) (k : string) : option string := environ !! k.

Section main.

(** The process environment and the BigQuery client the module is
    initialised with. *)
Variable environ : gmap string string.
Variable bq_client : Client.

Definition PROJECT_ID : option string := getenv environ "PROJECT_ID".
Definition DATASET_ID : option string := getenv environ "DATASET_ID".
Definition AUDIT_TABLE_ID : option string := getenv environ "AUDIT_TABLE_ID".

Definition audit_table_ref : string :=
  PyStr.fmt PROJECT_ID +:+ "." +:+ PyStr.fmt DATASET_ID +:+ "." +:+ PyStr.fmt AUDIT_TABLE_ID.

Definition log_event_to_audit_table (event_metadata : gmap string pyval) : M unit :=
  let rows_to_insert := [event_metadata] in
  errors ← call (InsertRowsJson audit_table_ref rows_to_insert)
                (insert_rows_json bq_client audit_table_ref rows_to_insert);
  if truthy_list errors
  then logging_error ("Failed to log event metadata: " +:+ str_errors errors)
  else mret ().

(** [file_name.split('.')[0].replace(' ', '_')]. *)
Definition table_name_of (file_name : string) : result string :=
  match index0 (PyStr.split "." file_name) with
  | Ret table_name => Ret (PyStr.replace " " "_" table_name)
  | Raise e => Raise e
  end.

Definition table_ref_of (table_name : string) : string :=
  PyStr.fmt PROJECT_ID +:+ "." +:+ PyStr.fmt DATASET_ID +:+ ".100_" +:+ table_name.

Definition uri_of (bucket_name file_name : string) : string :=
  "gs://" +:+ bucket_name +:+ "/" +:+ file_name.

Definition job_config : LoadJobConfig := {|
  skip_leading_rows := 1;
  autodetect := true;
  field_delimiter := ",";
  allow_quoted_newlines := true;
  quote_character := String "034" EmptyString;
  write_disposition := WRITE_TRUNCATE
|}.

(** The dictionary literal bound to [event_metadata]. *)
Definition initial_metadata (context : Context) (bucket_name file_name : string)
  : gmap string pyval :=
  <["event_id" := PStr (event_id context)]>
  (<["timestamp" := PStr (timestamp context)]>
  (<["event_type" := PStr (event_type context)]>
  (<["resource_name" := PStr (default EmptyString (resource context !! "name"))]>
  (<["bucket_name" := PStr bucket_name]>
  (<["file_name" := PStr file_name]>
  (<["status" := PStr "Pending"]>
  (<["error_message" := PNone]> ∅))))))).

(** The body of the [try] statement. *)
Definition load_body (uri table_ref file_name : string) : M unit :=
  load_job ← call (LoadTableFromUri uri table_ref job_config)
                  (load_table_from_uri bq_client uri table_ref job_config);
  call (JobResult (job_id load_job)) (job_result load_job);;
  logging_info ("Job " +:+ job_id load_job +:+ " completed successfully");;
  table ← call (GetTable table_ref) (get_table bq_client table_ref);
  logging_info ("Loaded " +:+ pretty (num_rows table) +:+ " rows into " +:+ table_ref);;
  if truthy (job_errors load_job) then
    setitem "status" (PStr "Failure");;
    setitem "error_message" (PStr (str_job_errors (job_errors load_job)));;
    logging_error ("Load job errors: " +:+ str_job_errors (job_errors load_job))
  else
    setitem "status" (PStr "Success");;
    logging_info ("Successfully loaded " +:+ file_name +:+ " into " +:+ table_ref).

(** The [except Exception as e] clause. *)
Definition load_except (uri : string) (e : PyExc) : M unit :=
  setitem "status" (PStr "Failure");;
  setitem "error_message" (PStr (exc_str e));;
  logging_error ("Failed to load data from " +:+ uri +:+ " to BigQuery: " +:+ exc_str e);;
  raise e.

(** The [finally] clause. *)
Definition load_finally : M unit :=
  event_metadata ← read;
  log_event_to_audit_table event_metadata.

Definition load_data_to_bigquery (event : gmap string string) (context : Context) : M unit :=
  bucket_name ← lift (getitem event "bucket");
  file_name ← lift (getitem event "name");
  table_name ← lift (table_name_of file_name);
  let table_ref := table_ref_of table_name in
  let uri := uri_of bucket_name file_name in
  assign (initial_metadata context bucket_name file_name);;
  logging_info ("Starting load for " +:+ uri +:+ " into BigQuery table " +:+ table_ref);;
  try_except_finally
    (load_body uri table_ref file_name)
    (load_except uri)
    load_finally.

(** One invocation: the local [event_metadata] is unbound (empty) on
    entry. *)
Definition invoke (event : gmap string string) (context : Context) : Run unit :=
  load_data_to_bigquery event context ∅.

End main.

(** ** Observations on a run *)

(** The audit rows handed to [insert_rows_json], one entry per call of the
    Audit Logger, in order. *)
Fixpoint audit_calls (t : list Effect) : list (string * list (gmap string pyval)) :=
  match t with
  | [] => []
  | InsertRowsJson table_ref rows :: t' => (table_ref, rows) :: audit_calls t'
  | _ :: t' => audit_calls t'
  end.

(** The load jobs submitted, in order. *)
Fixpoint load_calls (t : list Effect) : list (string * string * LoadJobConfig) :=
  match t with
  | [] => []
  | LoadTableFromUri uri table_ref cfg :: t' => (uri, table_ref, cfg) :: load_calls t'
  | _ :: t' => load_calls t'
  end.

(** The notification contract of the trigger: the event carries [bucket]
    and [name]. *)
Definition well_formed (event : gmap string string) : Prop :=
  is_Some (event !! "bucket") ∧ is_Some (event !! "name").

(** ** Sample inputs *)

Definition sample_environ : gmap string string :=
  <["PROJECT_ID" := "p"]> (<["DATASET_ID" := "d"]> (<["AUDIT_TABLE_ID" := "audit"]> ∅)).

Definition sample_event : gmap string string :=
  <["bucket" := "b1"]> (<["name" := "orders 2024.csv"]> ∅).

Definition sample_context : Context := {|
  event_id := "e-1";
  timestamp := "2024-01-01T00:00:00Z";
  event_type := "google.storage.object.finalize";
  resource := <["name" := "projects/_/buckets/b1/objects/orders 2024.csv"]> ∅
|}.

Definition sample_job : LoadJob := {|
  job_id := "job-1";
  job_result := Ret ();
  job_errors := None
|}.

(** ** The destination table in the specification's words *)

(** The table-name segment: for a name with a dot, what stands before the
    first dot, with spaces turned into underscores; for a name without a
    dot, the whole name with spaces turned into underscores. *)
Definition spec_table_segment (name : string) : string :=
  if PyStr.contains "." name
  then PyStr.replace " " "_" (PyStr.before_first "." name)
  else PyStr.replace " " "_" name.

(** [{project}.{dataset}.100_{segment}]. *)
Definition spec_table_id (project dataset name : string) : string :=
  project +:+ "." +:+ dataset +:+ ".100_" +:+ spec_table_segment name.

(** ** Clients used in examples *)

Definition KeyboardInterrupt : PyExc := mkExc "KeyboardInterrupt" false EmptyString.
Definition Forbidden : PyExc := mkExc "Forbidden" true "403 Access Denied".
Definition NotFound : PyExc := mkExc "NotFound" true "404 Not found: Table p:d.audit".

(** [bq] with the response of [insert_rows_json] replaced. *)
Definition with_insert (bq : Client) (response : result (list ErrorEntry)) : Client := {|
  load_table_from_uri := load_table_from_uri bq;
  get_table := get_table bq;
  insert_rows_json := λ _ _, response
|}.

(** [bq] with the response of [load_table_from_uri] replaced. *)
Definition with_load (bq : Client) (response : result LoadJob) : Client := {|
  load_table_from_uri := λ _ _ _, response;
  get_table := get_table bq;
  insert_rows_json := insert_rows_json bq
|}.

(** [bq] with the response of [get_table] replaced. *)
Definition with_get_table (bq : Client) (response : result Table) : Client := {|
  load_table_from_uri := load_table_from_uri bq;
  get_table := λ _, response;
  insert_rows_json := insert_rows_json bq
|}.

(** The wait for the job is interrupted from outside the [Exception]
    hierarchy. *)
Definition interrupted_job : LoadJob := {|
  job_id := "job-3";
  job_result := Raise KeyboardInterrupt;
  job_errors := None
|}.

Definition sample_errors : list ErrorEntry :=
  [{| repr := "{'reason': 'invalid', 'message': 'Too many values in row 3'}" |}].

Definition job_with_errors : LoadJob := {|
  job_id := "job-2";
  job_result := Ret ();
  job_errors := Some sample_errors
|}.

(** A client for which every call returns and nothing is reported. *)
Definition quiet_client : Client := {|
  load_table_from_uri := λ _ _ _, Ret sample_job;
  get_table := λ _, Ret {| num_rows := 42 |};
  insert_rows_json := λ _ _, Ret []
|}.

(** The wait is interrupted. *)
Definition interrupted_client : Client := with_load quiet_client (Ret interrupted_job).

(** The submission is refused. *)
Definition refused_client : Client := with_load quiet_client (Raise Forbidden).

(** The submission is refused and the audit table is missing. *)
Definition refused_unaudited_client : Client := with_insert refused_client (Raise NotFound).

(** The load is clean; the audit table is missing. *)
Definition unaudited_client : Client := with_insert quiet_client (Raise NotFound).

(** The load is clean; looking up the destination table is refused. *)
Definition lookup_refused_client : Client := with_get_table quiet_client (Raise Forbidden).

(** The job completes and reports errors. *)
Definition errors_client : Client := with_load quiet_client (Ret job_with_errors).

(** The job reports errors; looking up the destination table is refused. *)
Definition errors_lookup_refused_client : Client :=
  with_get_table errors_client (Raise Forbidden).

(** The job reports errors; the audit table is missing. *)
Definition errors_unaudited_client : Client := with_insert errors_client (Raise NotFound).

(** The load is clean; the audit insert reports a row error. *)
Definition audit_row_error_client : Client :=
  with_insert quiet_client (Ret [{| repr := "{'index': 0, 'errors': [{'reason': 'invalid'}]}" |}]).

(** ** The phases of one invocation

    The responses the client gives to the calls the handler makes for the
    object [file_name] of [bucket_name], and the situations the
    specification distinguishes. *)

Section phases.

Variable environ : gmap string string.
Variable bq : Client.
Variables bucket_name file_name : string.

(** The destination the handler derives for [file_name]. *)
Definition destination : string := table_ref_of environ (spec_table_segment file_name).

Definition load_response : result LoadJob :=
  load_table_from_uri bq (uri_of bucket_name file_name) destination job_config.

Definition lookup_response : result Table := get_table bq destination.

Definition audit_response (event_metadata : gmap string pyval) : result (list ErrorEntry) :=
  insert_rows_json bq (audit_table_ref environ) [event_metadata].

(** The submission of the load job, or the wait for it, raises [e]. *)
Definition submission_or_wait_raises (e : PyExc) : Prop :=
  load_response = Raise e ∨
  ∃ job, load_response = Ret job ∧ job_result job = Raise e.

(** The load job [job] was submitted and the wait for it returned. *)
Definition job_completes (job : LoadJob) : Prop :=
  load_response = Ret job ∧ job_result job = Ret ().

(** The exception, if any, that leaves the body of the [try]. *)
Definition load_fault : option PyExc :=
  match load_response with
  | Raise e => Some e
  | Ret job =>
      match job_result job with
      | Raise e => Some e
      | Ret _ =>
          match lookup_response with
          | Raise e => Some e
          | Ret _ => None
          end
      end
  end.

(** The statement the handler reaches once the event has been read. *)
Definition try_statement : M unit :=
  try_except_finally
    (load_body bq (uri_of bucket_name file_name) destination file_name)
    (load_except (uri_of bucket_name file_name))
    (load_finally environ bq).

End phases.

(** A status is terminal when it is ["Success"] or ["Failure"]. *)
Definition terminal (status : option pyval) : Prop :=
  status = Some (PStr "Success") ∨ status = Some (PStr "Failure").

(** ** Further observations on a run *)

(** The calls made to the BigQuery client, in order, without the log
    lines. *)
Fixpoint client_calls (t : list Effect) : list Effect :=
  match t with
  | [] => []
  | LoggingInfo _ :: t' => client_calls t'
  | LoggingError _ :: t' => client_calls t'
  | ev :: t' => ev :: client_calls t'
  end.

(** The messages logged with [logging.error], in order. *)
Fixpoint error_lines (t : list Effect) : list string :=
  match t with
  | [] => []
  | LoggingError msg :: t' => msg :: error_lines t'
  | _ :: t' => error_lines t'
  end.

(** The destination tables of the load jobs submitted. *)
Definition load_destinations (t : list Effect) : list string :=
  (λ c : string * string * LoadJobConfig, c.1.2) <$> load_calls t.

(** The keys of the dictionary literal bound to [event_metadata]. *)
Definition audit_keys : gset string :=
  {[ "event_id"; "timestamp"; "event_type"; "resource_name";
     "bucket_name"; "file_name"; "status"; "error_message" ]}.

(** [s.count(c)]. *)
Fixpoint count_char (c : ascii) (s : string) : nat :=
  match s with
  | EmptyString => 0
  | String c' s' => (if Ascii.eqb c' c then 1 else 0) + count_char c s'
  end.

(** The error line the Audit Logger writes for what its insert call
    answered. *)
Definition audit_error_lines (response : result (list ErrorEntry)) : list string :=
  match response with
  | Ret errors =>
      if truthy_list errors
      then ["Failed to log event metadata: " +:+ str_errors errors]
      else []
  | Raise _ => []
  end.

(** ** Python string facts *)

Module PyStrFacts.
Import PyStr.

Lemma split_nonempty sep s : split sep s ≠ [].
Proof.
  destruct s as [|c s]; simpl; [done|].
  destruct (Ascii.eqb c sep); [done|].
  by destruct (split sep s).
Qed.

(** The first element of [s.split(sep)] is the part of [s] before the
    first [sep]. *)
Lemma split_head sep s : ∃ rest, split sep s = before_first sep s :: rest.
Proof.
  induction s as [|c s [rest IH]]; simpl; [by eexists|].
  destruct (Ascii.eqb c sep); [by eexists|].
  rewrite IH. by eexists.
Qed.

Lemma index0_split sep s : index0 (split sep s) = Ret (before_first sep s).
Proof. destruct (split_head sep s) as [rest ->]. done. Qed.

Lemma before_first_absent c s : contains c s = false → before_first c s = s.
Proof.
  induction s as [|c' s IH]; simpl; [done|].
  destruct (Ascii.eqb c' c); simpl; [done|].
  intros H. by rewrite IH.
Qed.

(** [before_first] is the prefix in front of the first separator. *)
Lemma before_first_app c pre post :
  contains c pre = false → before_first c (pre +:+ String c post) = pre.
Proof.
  induction pre as [|c' pre IH]; simpl.
  - by rewrite Ascii.eqb_refl.
  - destruct (Ascii.eqb c' c); simpl; [done|].
    intros H. by rewrite IH.
Qed.

Lemma contains_app c pre post : contains c (pre +:+ String c post) = true.
Proof.
  induction pre as [|c' pre IH]; simpl.
  - by rewrite Ascii.eqb_refl.
  - rewrite IH. by destruct (Ascii.eqb c' c).
Qed.

(** A name with a dot decomposes around its first dot. *)
Lemma contains_split c s :
  contains c s = true →
  ∃ post, s = before_first c s +:+ String c post ∧ contains c (before_first c s) = false.
Proof.
  induction s as [|c' s IH]; simpl; [done|].
  destruct (Ascii.eqb c' c) eqn:E; simpl.
  - intros _. apply Ascii.eqb_eq in E as ->. by exists s.
  - intros [post [Hs Hn]]%IH. exists post. split.
    + change (String c' s = String c' (before_first c s +:+ String c post)).
      by f_equal.
    + simpl. by rewrite E, Hn.
Qed.

Lemma replace_length old new s : String.length (replace old new s) = String.length s.
Proof. induction s; simpl; congruence. Qed.

Lemma replace_removes old new s : old ≠ new → contains old (replace old new s) = false.
Proof.
  intros Hne. induction s as [|c s IH]; simpl; [done|].
  rewrite IH, orb_false_r.
  destruct (Ascii.eqb c old) eqn:E; [|done].
  apply Ascii.eqb_neq. congruence.
Qed.

End PyStrFacts.

(** ** Running the handler *)

Section runs.

Variable environ : gmap string string.
Variable bq : Client.

Lemma table_name_of_spec name : table_name_of name = Ret (spec_table_segment name).
Proof.
  unfold table_name_of, spec_table_segment.
  rewrite PyStrFacts.index0_split.
  destruct (PyStr.contains "." name) eqn:E; [done|].
  by rewrite PyStrFacts.before_first_absent.
Qed.

Lemma invoke_well_formed event context bucket_name file_name :
  event !! "bucket" = Some bucket_name →
  event !! "name" = Some file_name →
  let r := try_statement environ bq bucket_name file_name
             (initial_metadata context bucket_name file_name) in
  invoke environ bq event context =
    mkRun (outcome r) (metadata r)
          (LoggingInfo ("Starting load for " +:+ uri_of bucket_name file_name +:+
                        " into BigQuery table " +:+ destination environ file_name)
           :: effects r).
Proof.
  intros Hb Hn. unfold invoke, load_data_to_bigquery.
  cbv [mbind M_bind bind lift getitem assign logging_info].
  rewrite Hb. cbn [outcome metadata effects app].
  rewrite Hn. cbn [outcome metadata effects app].
  rewrite table_name_of_spec. cbn [outcome metadata effects app].
  reflexivity.
Qed.

(** Without [bucket] the handler stops at its first line. *)
Lemma invoke_no_bucket event context :
  event !! "bucket" = None →
  invoke environ bq event context = mkRun (Raise (KeyError "bucket")) ∅ [].
Proof.
  intros Hb. unfold invoke, load_data_to_bigquery.
  cbv [mbind M_bind bind lift getitem]. by rewrite Hb.
Qed.

Lemma invoke_no_name event context bucket_name :
  event !! "bucket" = Some bucket_name →
  event !! "name" = None →
  invoke environ bq event context = mkRun (Raise (KeyError "name")) ∅ [].
Proof.
  intros Hb Hn. unfold invoke, load_data_to_bigquery.
  cbv [mbind M_bind bind lift getitem].
  rewrite Hb. cbn [outcome metadata effects app]. by rewrite Hn.
Qed.

Ltac unfold_run :=
  cbv [try_statement try_except_finally try_finally try_except load_body load_except load_finally
       log_event_to_audit_table mbind M_bind bind mret M_ret ret call raise read
       setitem logging_info logging_error outcome metadata effects].

Lemma load_body_run uri table_ref file_name σ :
  load_body bq uri table_ref file_name σ =
  match load_table_from_uri bq uri table_ref job_config with
  | Raise e => mkRun (Raise e) σ [LoadTableFromUri uri table_ref job_config]
  | Ret load_job =>
      let submitted :=
        [LoadTableFromUri uri table_ref job_config; JobResult (job_id load_job)] in
      match job_result load_job with
      | Raise e => mkRun (Raise e) σ submitted
      | Ret _ =>
          let waited :=
            submitted ++ [LoggingInfo ("Job " +:+ job_id load_job +:+ " completed successfully");
                          GetTable table_ref] in
          match get_table bq table_ref with
          | Raise e => mkRun (Raise e) σ waited
          | Ret table =>
              let loaded :=
                waited ++ [LoggingInfo ("Loaded " +:+ pretty (num_rows table) +:+
                                        " rows into " +:+ table_ref)] in
              if truthy (job_errors load_job) then
                mkRun (Ret ())
                      (<["error_message" := PStr (str_job_errors (job_errors load_job))]>
                         (<["status" := PStr "Failure"]> σ))
                      (loaded ++ [LoggingError ("Load job errors: " +:+
                                                str_job_errors (job_errors load_job))])
              else
                mkRun (Ret ()) (<["status" := PStr "Success"]> σ)
                      (loaded ++ [LoggingInfo ("Successfully loaded " +:+ file_name +:+
                                               " into " +:+ table_ref)])
          end
      end
  end.
Proof.
  unfold_run.
  destruct (load_table_from_uri bq uri table_ref job_config) as [load_job|e]; [|done].
  destruct (job_result load_job) as [[]|e]; [|done].
  destruct (get_table bq table_ref) as [table|e]; [|done].
  by destruct (truthy (job_errors load_job)).
Qed.

Lemma load_finally_run σ :
  load_finally environ bq σ =
  match insert_rows_json bq (audit_table_ref environ) [σ] with
  | Raise e => mkRun (Raise e) σ [InsertRowsJson (audit_table_ref environ) [σ]]
  | Ret errors =>
      mkRun (Ret ()) σ
            (InsertRowsJson (audit_table_ref environ) [σ] ::
             if truthy_list errors
             then [LoggingError ("Failed to log event metadata: " +:+ str_errors errors)]
             else [])
  end.
Proof.
  unfold_run.
  destruct (insert_rows_json bq (audit_table_ref environ) [σ]) as [errors|e]; [|done].
  by destruct (truthy_list errors).
Qed.

Lemma load_except_run uri e σ :
  load_except uri e σ =
  mkRun (Raise e)
        (<["error_message" := PStr (exc_str e)]> (<["status" := PStr "Failure"]> σ))
        [LoggingError ("Failed to load data from " +:+ uri +:+ " to BigQuery: " +:+ exc_str e)].
Proof. reflexivity. Qed.

Lemma audit_calls_app t1 t2 : audit_calls (t1 ++ t2) = audit_calls t1 ++ audit_calls t2.
Proof.
  induction t1 as [|ev t1 IH]; [done|].
  destruct ev; simpl; by rewrite ?IH.
Qed.

Lemma load_calls_app t1 t2 : load_calls (t1 ++ t2) = load_calls t1 ++ load_calls t2.
Proof.
  induction t1 as [|ev t1 IH]; [done|].
  destruct ev; simpl; by rewrite ?IH.
Qed.

(** Case analysis on everything the client answers during the [try]
    statement started in state [σ]. *)
Ltac client_cases b n σ :=
  unfold try_statement, try_except_finally, try_finally, try_except;
  rewrite load_body_run;
  unfold load_fault, load_response, lookup_response;
  destruct (load_table_from_uri bq (uri_of b n) (destination environ n) job_config)
    as [load_job|e];
  [ destruct (job_result load_job) as [[]|e];
    [ destruct (get_table bq (destination environ n)) as [table|e];
      [ destruct (truthy (job_errors load_job)) eqn:Herrors | ] | ] | ];
  cbn [outcome metadata effects];
  try (destruct (is_Exception e) eqn:Hexc; rewrite ?load_except_run);
  cbn [outcome metadata effects];
  rewrite load_finally_run;
  match goal with
  | |- context [insert_rows_json bq ?t ?rows] =>
      destruct (insert_rows_json bq t rows) as [errors|e'] eqn:Hinsert;
      [ destruct (truthy_list errors) eqn:Hrows | ]
  end;
  cbn [outcome metadata effects].

Lemma try_statement_audit_calls b n σ :
  let r := try_statement environ bq b n σ in
  audit_calls (effects r) = [(audit_table_ref environ, [metadata r])].
Proof.
  client_cases b n σ.
  all: by rewrite ?audit_calls_app.
Qed.

Lemma try_statement_load_calls b n σ :
  load_calls (effects (try_statement environ bq b n σ)) =
    [(uri_of b n, destination environ n, job_config)].
Proof.
  client_cases b n σ.
  all: by rewrite ?load_calls_app.
Qed.

(** The state of [event_metadata] when the statement is left. *)
Lemma try_statement_metadata b n σ :
  metadata (try_statement environ bq b n σ) =
  match load_fault environ bq b n with
  | Some e =>
      if is_Exception e
      then <["error_message" := PStr (exc_str e)]> (<["status" := PStr "Failure"]> σ)
      else σ
  | None =>
      match load_response environ bq b n with
      | Ret load_job =>
          if truthy (job_errors load_job)
          then <["error_message" := PStr (str_job_errors (job_errors load_job))]>
                 (<["status" := PStr "Failure"]> σ)
          else <["status" := PStr "Success"]> σ
      | Raise _ => σ
      end
  end.
Proof.
  client_cases b n σ.
  all: by rewrite ?Herrors, ?Hexc.
Qed.

(** How the statement is left: a fault of the audit insert comes first,
    then the fault of the body, otherwise a normal return. *)
Lemma try_statement_outcome b n σ :
  let r := try_statement environ bq b n σ in
  outcome r =
  match audit_response environ bq (metadata r) with
  | Raise e' => Raise e'
  | Ret _ =>
      match load_fault environ bq b n with
      | Some e => Raise e
      | None => Ret ()
      end
  end.
Proof.
  client_cases b n σ.
  all: unfold audit_response; by rewrite Hinsert.
Qed.

(** What the statement does after the audit insert: at most one error
    line. *)
Lemma try_statement_effects b n σ :
  let r := try_statement environ bq b n σ in
  ∃ before,
    audit_calls before = [] ∧
    effects r =
      before ++ InsertRowsJson (audit_table_ref environ) [metadata r] ::
      match audit_response environ bq (metadata r) with
      | Ret errors =>
          if truthy_list errors
          then [LoggingError ("Failed to log event metadata: " +:+ str_errors errors)]
          else []
      | Raise _ => []
      end.
Proof.
  client_cases b n σ.
  all: unfold audit_response; rewrite Hinsert, ?Hrows.
  all: eexists; split; [|reflexivity]; by rewrite ?audit_calls_app.
Qed.

End runs.

(** ** Properties of the handler *)

Section handler.

Variable environ : gmap string string.
Variable bq : Client.
Variable event : gmap string string.
Variable context : Context.

Local Abbreviation run := (invoke environ bq event context).

Lemma well_formed_inv :
  well_formed event →
  ∃ bucket_name file_name,
    event !! "bucket" = Some bucket_name ∧ event !! "name" = Some file_name.
Proof. intros [[b Hb] [n Hn]]. by exists b, n. Qed.

Lemma invoke_audit_calls :
  well_formed event →
  audit_calls (effects run) = [(audit_table_ref environ, [metadata run])].
Proof.
  intros (b & n & Hb & Hn)%well_formed_inv.
  rewrite (invoke_well_formed environ bq event context b n Hb Hn).
  cbn [outcome metadata effects audit_calls].
  apply try_statement_audit_calls.
Qed.

Lemma invoke_load_calls bucket_name file_name :
  event !! "bucket" = Some bucket_name →
  event !! "name" = Some file_name →
  load_calls (effects run) =
    [(uri_of bucket_name file_name, destination environ file_name, job_config)].
Proof.
  intros Hb Hn.
  rewrite (invoke_well_formed environ bq event context _ _ Hb Hn).
  cbn [outcome metadata effects load_calls].
  apply try_statement_load_calls.
Qed.

Lemma invoke_metadata bucket_name file_name :
  event !! "bucket" = Some bucket_name →
  event !! "name" = Some file_name →
  metadata run =
    metadata (try_statement environ bq bucket_name file_name
                (initial_metadata context bucket_name file_name)).
Proof.
  intros Hb Hn.
  by rewrite (invoke_well_formed environ bq event context _ _ Hb Hn).
Qed.

Lemma invoke_outcome bucket_name file_name :
  event !! "bucket" = Some bucket_name →
  event !! "name" = Some file_name →
  outcome run =
    match audit_response environ bq (metadata run) with
    | Raise e' => Raise e'
    | Ret _ =>
        match load_fault environ bq bucket_name file_name with
        | Some e => Raise e
        | None => Ret ()
        end
    end.
Proof.
  intros Hb Hn.
  rewrite (invoke_well_formed environ bq event context _ _ Hb Hn).
  cbn [outcome metadata effects].
  apply try_statement_outcome.
Qed.

Lemma invoke_effects :
  well_formed event →
  ∃ before,
    audit_calls before = [] ∧
    effects run =
      before ++ InsertRowsJson (audit_table_ref environ) [metadata run] ::
      match audit_response environ bq (metadata run) with
      | Ret errors =>
          if truthy_list errors
          then [LoggingError ("Failed to log event metadata: " +:+ str_errors errors)]
          else []
      | Raise _ => []
      end.
Proof.
  intros (b & n & Hb & Hn)%well_formed_inv.
  rewrite (invoke_well_formed environ bq event context b n Hb Hn).
  cbn [outcome metadata effects].
  destruct (try_statement_effects environ bq b n (initial_metadata context b n))
    as (before & Hnone & ->).
  eexists (_ :: before). split; [|reflexivity]. done.
Qed.

(** C1. On every way out of an invocation (normal return, completion
    with job errors, or a raised fault; here: whatever the client
    answers) the Audit Logger's insert is issued exactly once, with the
    audit record as it then stands, and nothing but the logger's own
    error line follows it before the handler returns or the fault
    escapes. The event carries [bucket] and [name], as the trigger's
    notifications do. *)
Theorem audit_logger_invoked_exactly_once :
  well_formed event →
  audit_calls (effects run) = [(audit_table_ref environ, [metadata run])] ∧
  ∃ before,
    audit_calls before = [] ∧
    effects run =
      before ++ InsertRowsJson (audit_table_ref environ) [metadata run] ::
      match audit_response environ bq (metadata run) with
      | Ret errors =>
          if truthy_list errors
          then [LoggingError ("Failed to log event metadata: " +:+ str_errors errors)]
          else []
      | Raise _ => []
      end.
Proof.
  intros Hwf. split; [by apply invoke_audit_calls | by apply invoke_effects].
Qed.

Lemma submission_or_wait_fault b n e :
  submission_or_wait_raises environ bq b n e → load_fault environ bq b n = Some e.
Proof.
  unfold submission_or_wait_raises, load_fault.
  intros [-> | (job & -> & ->)]; done.
Qed.

Lemma job_completes_fault b n job :
  job_completes environ bq b n job →
  load_fault environ bq b n =
    match lookup_response environ bq n with
    | Raise e => Some e
    | Ret _ => None
    end.
Proof. unfold job_completes, load_fault. by intros [-> ->]. Qed.

Lemma initial_metadata_lookup b n :
  let σ := initial_metadata context b n in
  σ !! "event_id" = Some (PStr (event_id context)) ∧
  σ !! "timestamp" = Some (PStr (timestamp context)) ∧
  σ !! "event_type" = Some (PStr (event_type context)) ∧
  σ !! "resource_name" = Some (PStr (default EmptyString (resource context !! "name"))) ∧
  σ !! "bucket_name" = Some (PStr b) ∧
  σ !! "file_name" = Some (PStr n) ∧
  σ !! "status" = Some (PStr "Pending") ∧
  σ !! "error_message" = Some PNone.
Proof.
  unfold initial_metadata.
  repeat split; by rewrite ?lookup_insert_ne, lookup_insert_eq by discriminate.
Qed.

(** Only [status] and [error_message] differ between the record the
    handler creates and the record it ends with. *)
Lemma invoke_frame b n k :
  event !! "bucket" = Some b →
  event !! "name" = Some n →
  k ≠ "status" → k ≠ "error_message" →
  metadata run !! k = initial_metadata context b n !! k.
Proof.
  intros Hb Hn Hs He.
  rewrite (invoke_metadata b n Hb Hn), try_statement_metadata.
  destruct (load_fault environ bq b n) as [e|].
  - destruct (is_Exception e); [|done].
    by rewrite !lookup_insert_ne.
  - destruct (load_response environ bq b n) as [job|e]; [|done].
    destruct (truthy (job_errors job)); by rewrite !lookup_insert_ne.
Qed.

(** C2 (amended). When the submission of the load job or the wait for it
    raises a fault that is an instance of [Exception], the handler sets
    the status to "Failure" and the error message to the string form of
    the fault, and hands that record to the Audit Logger; when the audit
    insert returns, the same fault then reaches the caller. *)
Theorem load_fault_recorded_and_reraised bucket_name file_name e :
  event !! "bucket" = Some bucket_name →
  event !! "name" = Some file_name →
  submission_or_wait_raises environ bq bucket_name file_name e →
  is_Exception e = true →
  audit_calls (effects run) = [(audit_table_ref environ, [metadata run])] ∧
  metadata run !! "status" = Some (PStr "Failure") ∧
  metadata run !! "error_message" = Some (PStr (exc_str e)) ∧
  (∀ errors, audit_response environ bq (metadata run) = Ret errors → outcome run = Raise e).
Proof.
  intros Hb Hn Hfault%submission_or_wait_fault Hexc.
  assert (metadata run =
          <["error_message" := PStr (exc_str e)]>
            (<["status" := PStr "Failure"]> (initial_metadata context bucket_name file_name)))
    as Hmd.
  { by rewrite (invoke_metadata _ _ Hb Hn), try_statement_metadata, Hfault, Hexc. }
  split; [apply invoke_audit_calls; split; eauto|].
  split; [by rewrite Hmd, lookup_insert_ne, lookup_insert_eq|].
  split; [by rewrite Hmd, lookup_insert_eq|].
  intros errors Haudit.
  by rewrite (invoke_outcome _ _ Hb Hn), Haudit, Hfault.
Qed.

(** C4. For every object name the destination of the load job is
    [{project}.{dataset}.100_] followed by the table-name segment, which
    for a name with a dot is what stands before the first dot with spaces
    replaced by underscores, and for a name without a dot is the whole
    name with spaces replaced by underscores. *)
Theorem destination_table_identifier bucket_name file_name :
  event !! "bucket" = Some bucket_name →
  event !! "name" = Some file_name →
  table_name_of file_name = Ret (spec_table_segment file_name) ∧
  load_calls (effects run) =
    [(uri_of bucket_name file_name,
      spec_table_id (PyStr.fmt (PROJECT_ID environ)) (PyStr.fmt (DATASET_ID environ)) file_name,
      job_config)] ∧
  (∀ pre post,
     file_name = pre +:+ String "." post → PyStr.contains "." pre = false →
     spec_table_segment file_name = PyStr.replace " " "_" pre) ∧
  (PyStr.contains "." file_name = false →
   spec_table_segment file_name = PyStr.replace " " "_" file_name).
Proof.
  intros Hb Hn.
  split; [apply table_name_of_spec|].
  split; [by apply invoke_load_calls|].
  unfold spec_table_segment. split.
  - intros pre post -> Hpre.
    by rewrite PyStrFacts.contains_app, PyStrFacts.before_first_app.
  - by intros ->.
Qed.

(** C5. The load job is submitted with one leading row skipped, schema
    autodetection on, comma as field delimiter, quoted newlines allowed,
    the double quote as quote character, and the truncating (overwrite,
    not append) write disposition. *)
Theorem load_job_configuration :
  well_formed event →
  ∃ uri table_ref cfg,
    load_calls (effects run) = [(uri, table_ref, cfg)] ∧
    skip_leading_rows cfg = 1%Z ∧
    autodetect cfg = true ∧
    field_delimiter cfg = "," ∧
    allow_quoted_newlines cfg = true ∧
    quote_character cfg = String "034" EmptyString ∧
    write_disposition cfg = WRITE_TRUNCATE ∧
    write_disposition cfg ≠ WRITE_APPEND.
Proof.
  intros (b & n & Hb & Hn)%well_formed_inv.
  exists (uri_of b n), (destination environ n), job_config.
  split; [by apply invoke_load_calls|].
  by repeat split.
Qed.

(** C6 (amended). When the load job completes and reports no errors, and
    the lookup of the destination table that follows returns, the record
    handed to the Audit Logger has status "Success" and no error
    message. *)
Theorem clean_load_recorded_as_success bucket_name file_name job table :
  event !! "bucket" = Some bucket_name →
  event !! "name" = Some file_name →
  job_completes environ bq bucket_name file_name job →
  truthy (job_errors job) = false →
  lookup_response environ bq file_name = Ret table →
  audit_calls (effects run) = [(audit_table_ref environ, [metadata run])] ∧
  metadata run !! "status" = Some (PStr "Success") ∧
  metadata run !! "error_message" = Some PNone.
Proof.
  intros Hb Hn Hjob Herrors Hlookup.
  assert (metadata run =
          <["status" := PStr "Success"]> (initial_metadata context bucket_name file_name))
    as Hmd.
  { rewrite (invoke_metadata _ _ Hb Hn), try_statement_metadata.
    rewrite (job_completes_fault _ _ _ Hjob), Hlookup.
    destruct Hjob as [-> _]. by rewrite Herrors. }
  split; [apply invoke_audit_calls; split; eauto|].
  rewrite Hmd. split; [by rewrite lookup_insert_eq|].
  rewrite lookup_insert_ne by done.
  apply initial_metadata_lookup.
Qed.

(** C7 (amended). When the load job completes but reports errors, and the
    lookup of the destination table that follows returns, the record
    handed to the Audit Logger has status "Failure" and the string form of
    those errors as error message; when the audit insert returns, the
    handler returns normally. *)
Theorem job_errors_recorded_not_raised bucket_name file_name job table :
  event !! "bucket" = Some bucket_name →
  event !! "name" = Some file_name →
  job_completes environ bq bucket_name file_name job →
  truthy (job_errors job) = true →
  lookup_response environ bq file_name = Ret table →
  audit_calls (effects run) = [(audit_table_ref environ, [metadata run])] ∧
  metadata run !! "status" = Some (PStr "Failure") ∧
  metadata run !! "error_message" = Some (PStr (str_job_errors (job_errors job))) ∧
  (∀ errors, audit_response environ bq (metadata run) = Ret errors → outcome run = Ret ()).
Proof.
  intros Hb Hn Hjob Herrors Hlookup.
  pose proof (job_completes_fault _ _ _ Hjob) as Hfault. rewrite Hlookup in Hfault.
  assert (metadata run =
          <["error_message" := PStr (str_job_errors (job_errors job))]>
            (<["status" := PStr "Failure"]> (initial_metadata context bucket_name file_name)))
    as Hmd.
  { rewrite (invoke_metadata _ _ Hb Hn), try_statement_metadata, Hfault.
    destruct Hjob as [-> _]. by rewrite Herrors. }
  split; [apply invoke_audit_calls; split; eauto|].
  split; [by rewrite Hmd, lookup_insert_ne, lookup_insert_eq|].
  split; [by rewrite Hmd, lookup_insert_eq|].
  intros errors Haudit.
  by rewrite (invoke_outcome _ _ Hb Hn), Haudit, Hfault.
Qed.

(** C8 (amended). When every fault that leaves the load steps is an
    instance of [Exception], the record sent to the audit sink has a
    terminal status, "Success" or "Failure"; it is never "Pending". *)
Theorem audit_record_status_terminal bucket_name file_name :
  event !! "bucket" = Some bucket_name →
  event !! "name" = Some file_name →
  (∀ e, load_fault environ bq bucket_name file_name = Some e → is_Exception e = true) →
  audit_calls (effects run) = [(audit_table_ref environ, [metadata run])] ∧
  terminal (metadata run !! "status") ∧
  metadata run !! "status" ≠ Some (PStr "Pending").
Proof.
  intros Hb Hn Hexc.
  split; [apply invoke_audit_calls; split; eauto|].
  enough (terminal (metadata run !! "status")) as Hterminal.
  { split; [done|]. by destruct Hterminal as [-> | ->]. }
  rewrite (invoke_metadata _ _ Hb Hn), try_statement_metadata.
  unfold terminal, load_fault in *.
  destruct (load_response environ bq bucket_name file_name) as [job|e].
  - destruct (job_result job) as [[]|e].
    + destruct (lookup_response environ bq file_name) as [table|e].
      * destruct (truthy (job_errors job)).
        -- right. by rewrite lookup_insert_ne, lookup_insert_eq.
        -- left. by rewrite lookup_insert_eq.
      * rewrite (Hexc e eq_refl). right. by rewrite lookup_insert_ne, lookup_insert_eq.
    + rewrite (Hexc e eq_refl). right. by rewrite lookup_insert_ne, lookup_insert_eq.
  - rewrite (Hexc e eq_refl). right. by rewrite lookup_insert_ne, lookup_insert_eq.
Qed.

(** C9 (amended). A missing [PROJECT_ID], [DATASET_ID] or
    [AUDIT_TABLE_ID] makes nothing fail: the missing value reads "None"
    in the table identifiers, the load job and the audit insert are
    issued with those identifiers, and the handler raises only what a
    client call raised. *)
Theorem absent_configuration_reads_None bucket_name file_name :
  event !! "bucket" = Some bucket_name →
  event !! "name" = Some file_name →
  load_calls (effects run) =
    [(uri_of bucket_name file_name,
      default "None" (environ !! "PROJECT_ID") +:+ "." +:+
      default "None" (environ !! "DATASET_ID") +:+ ".100_" +:+
      spec_table_segment file_name,
      job_config)] ∧
  audit_calls (effects run) =
    [(default "None" (environ !! "PROJECT_ID") +:+ "." +:+
      default "None" (environ !! "DATASET_ID") +:+ "." +:+
      default "None" (environ !! "AUDIT_TABLE_ID"),
      [metadata run])] ∧
  (∀ e, outcome run = Raise e →
        load_fault environ bq bucket_name file_name = Some e ∨
        audit_response environ bq (metadata run) = Raise e).
Proof.
  intros Hb Hn.
  split; [by apply invoke_load_calls|].
  split; [apply invoke_audit_calls; split; eauto|].
  intros e. rewrite (invoke_outcome _ _ Hb Hn).
  destruct (audit_response environ bq (metadata run)) as [errors|e'].
  - destruct (load_fault environ bq bucket_name file_name); [|done].
    intros [= ->]. by left.
  - intros [= ->]. by right.
Qed.

(** C10. In the record handed to the Audit Logger, [event_id],
    [timestamp], [event_type], [resource_name], [bucket_name] and
    [file_name] are the values taken from the event and the context when
    the record was created ([resource_name] is the empty string when the
    resource mapping has no [name]); no key other than [status] and
    [error_message] differs from the record as created. *)
Theorem audit_record_frame bucket_name file_name :
  event !! "bucket" = Some bucket_name →
  event !! "name" = Some file_name →
  audit_calls (effects run) = [(audit_table_ref environ, [metadata run])] ∧
  metadata run !! "event_id" = Some (PStr (event_id context)) ∧
  metadata run !! "timestamp" = Some (PStr (timestamp context)) ∧
  metadata run !! "event_type" = Some (PStr (event_type context)) ∧
  metadata run !! "resource_name" =
    Some (PStr (match resource context !! "name" with
                | Some name => name
                | None => EmptyString
                end)) ∧
  metadata run !! "bucket_name" = Some (PStr bucket_name) ∧
  metadata run !! "file_name" = Some (PStr file_name) ∧
  (∀ k, k ≠ "status" → k ≠ "error_message" →
        metadata run !! k = initial_metadata context bucket_name file_name !! k).
Proof.
  intros Hb Hn.
  split; [apply invoke_audit_calls; split; eauto|].
  pose proof (initial_metadata_lookup bucket_name file_name)
    as (Hid & Hts & Hty & Hres & Hbucket & Hfile & _ & _).
  repeat split.
  - by rewrite (invoke_frame _ _ _ Hb Hn).
  - by rewrite (invoke_frame _ _ _ Hb Hn).
  - by rewrite (invoke_frame _ _ _ Hb Hn).
  - by rewrite (invoke_frame _ _ _ Hb Hn).
  - by rewrite (invoke_frame _ _ _ Hb Hn).
  - by rewrite (invoke_frame _ _ _ Hb Hn).
  - intros k. by apply invoke_frame.
Qed.

End handler.

(** ** The audit insert and the outcome of the handler *)

(** The [try ... except] part of the statement does not involve
    [insert_rows_json]. *)
Lemma try_statement_split environ bq b n σ :
  let guarded :=
    try_except (load_body bq (uri_of b n) (destination environ n) n)
               (load_except (uri_of b n)) σ in
  let audit := load_finally environ bq (metadata guarded) in
  metadata (try_statement environ bq b n σ) = metadata guarded ∧
  effects (try_statement environ bq b n σ) = effects guarded ++ effects audit.
Proof.
  cbv zeta. unfold try_statement, try_except_finally, try_finally.
  cbn [metadata effects]. rewrite load_finally_run.
  by destruct (insert_rows_json _ _ _).
Qed.

(** C3 (amended). Row errors that the Audit Logger's insert call returns
    are logged only: outcome and audit record are those of the run in
    which the insert reports nothing, the only difference is one error
    line at the end, and a fault the handler is propagating is the one
    that reaches the caller. A fault raised by the insert call itself is
    not caught: it is what reaches the caller. *)
Theorem audit_row_errors_are_logged_only
    environ bq event context bucket_name file_name errors e' :
  event !! "bucket" = Some bucket_name →
  event !! "name" = Some file_name →
  outcome (invoke environ (with_insert bq (Ret errors)) event context) =
    outcome (invoke environ (with_insert bq (Ret [])) event context) ∧
  metadata (invoke environ (with_insert bq (Ret errors)) event context) =
    metadata (invoke environ (with_insert bq (Ret [])) event context) ∧
  effects (invoke environ (with_insert bq (Ret errors)) event context) =
    effects (invoke environ (with_insert bq (Ret [])) event context) ++
    (if truthy_list errors
     then [LoggingError ("Failed to log event metadata: " +:+ str_errors errors)]
     else []) ∧
  outcome (invoke environ (with_insert bq (Ret errors)) event context) =
    match load_fault environ bq bucket_name file_name with
    | Some e => Raise e
    | None => Ret ()
    end ∧
  outcome (invoke environ (with_insert bq (Raise e')) event context) = Raise e'.
Proof.
  intros Hb Hn.
  assert (∀ response,
    outcome (invoke environ (with_insert bq response) event context) =
    match response with
    | Raise e' => Raise e'
    | Ret _ =>
        match load_fault environ bq bucket_name file_name with
        | Some e => Raise e
        | None => Ret ()
        end
    end) as Hout.
  { intros response.
    by rewrite (invoke_outcome environ (with_insert bq response) event context _ _ Hb Hn). }
  split; [by rewrite !Hout|].
  assert (∀ response,
    let r := invoke environ (with_insert bq response) event context in
    let guarded :=
      try_except (load_body bq (uri_of bucket_name file_name)
                            (destination environ file_name) file_name)
                 (load_except (uri_of bucket_name file_name))
                 (initial_metadata context bucket_name file_name) in
    metadata r = metadata guarded ∧
    effects r =
      LoggingInfo ("Starting load for " +:+ uri_of bucket_name file_name +:+
                   " into BigQuery table " +:+ destination environ file_name)
      :: effects guarded ++
         effects (load_finally environ (with_insert bq response) (metadata guarded)))
    as Hrun.
  { intros response. cbv zeta.
    rewrite (invoke_well_formed environ (with_insert bq response) event context _ _ Hb Hn).
    cbn [metadata effects].
    destruct (try_statement_split environ (with_insert bq response) bucket_name file_name
                (initial_metadata context bucket_name file_name)) as [-> ->].
    done. }
  destruct (Hrun (Ret errors)) as [Hmd1 Heff1].
  destruct (Hrun (Ret [])) as [Hmd0 Heff0].
  split; [by rewrite Hmd1, Hmd0|].
  split; [|split; by rewrite Hout].
  rewrite Heff1, Heff0, !load_finally_run.
  cbn [insert_rows_json with_insert truthy_list effects].
  destruct (truthy_list errors); cbn [app]; by rewrite <- ?app_assoc, ?app_nil_r.
Qed.

(** ** The properties on concrete invocations *)

Lemma sample_event_bucket : sample_event !! "bucket" = Some "b1".
Proof. reflexivity. Qed.

Lemma sample_event_name : sample_event !! "name" = Some "orders 2024.csv".
Proof. reflexivity. Qed.

Lemma sample_event_well_formed : well_formed sample_event.
Proof. split; eexists; reflexivity. Qed.

(** The end-to-end scenario of the specification. *)
Example orders_2024_loaded :
  let r := invoke sample_environ quiet_client sample_event sample_context in
  outcome r = Ret () ∧
  load_calls (effects r) = [("gs://b1/orders 2024.csv", "p.d.100_orders_2024", job_config)] ∧
  audit_calls (effects r) = [("p.d.audit", [metadata r])] ∧
  metadata r !! "status" = Some (PStr "Success") ∧
  metadata r !! "bucket_name" = Some (PStr "b1") ∧
  metadata r !! "file_name" = Some (PStr "orders 2024.csv") ∧
  metadata r !! "error_message" = Some PNone.
Proof. by vm_compute. Qed.

Example sales_q1_segment : spec_table_segment "Sales Q1.csv" = "Sales_Q1".
Proof. reflexivity. Qed.

Lemma audit_logger_invoked_exactly_once_witness :
  well_formed sample_event ∧
  audit_calls (effects (invoke sample_environ refused_client sample_event sample_context)) =
    [(audit_table_ref sample_environ,
      [metadata (invoke sample_environ refused_client sample_event sample_context)])].
Proof.
  split; [exact sample_event_well_formed|].
  exact (proj1 (audit_logger_invoked_exactly_once
                  sample_environ refused_client sample_event sample_context
                  sample_event_well_formed)).
Defined.

(** C2, as stated, fails twice. A fault outside the [Exception] hierarchy
    raised by the wait passes the [except] clause: the record reaches the
    Audit Logger with status "Pending" and no error message. And when the
    audit insert raises, its fault, not the fault of the submission, is
    what reaches the caller. *)
Lemma load_fault_counterexample :
  submission_or_wait_raises sample_environ interrupted_client
    "b1" "orders 2024.csv" KeyboardInterrupt ∧
  audit_calls (effects (invoke sample_environ interrupted_client sample_event sample_context)) =
    [(audit_table_ref sample_environ,
      [metadata (invoke sample_environ interrupted_client sample_event sample_context)])] ∧
  metadata (invoke sample_environ interrupted_client sample_event sample_context) !! "status"
    = Some (PStr "Pending") ∧
  metadata (invoke sample_environ interrupted_client sample_event sample_context)
    !! "error_message" = Some PNone ∧
  submission_or_wait_raises sample_environ refused_unaudited_client
    "b1" "orders 2024.csv" Forbidden ∧
  is_Exception Forbidden = true ∧
  outcome (invoke sample_environ refused_unaudited_client sample_event sample_context) =
    Raise NotFound ∧
  outcome (invoke sample_environ refused_unaudited_client sample_event sample_context) ≠
    Raise Forbidden.
Proof.
  split; [right; eexists; split; reflexivity|].
  split; [by vm_compute|].
  split; [by vm_compute|].
  split; [by vm_compute|].
  split; [left; reflexivity|].
  split; [reflexivity|].
  split; by vm_compute.
Qed.

Lemma load_fault_recorded_and_reraised_witness :
  submission_or_wait_raises sample_environ refused_client "b1" "orders 2024.csv" Forbidden ∧
  metadata (invoke sample_environ refused_client sample_event sample_context) !! "status"
    = Some (PStr "Failure") ∧
  metadata (invoke sample_environ refused_client sample_event sample_context)
    !! "error_message" = Some (PStr "403 Access Denied") ∧
  outcome (invoke sample_environ refused_client sample_event sample_context) = Raise Forbidden.
Proof.
  assert (submission_or_wait_raises sample_environ refused_client
            "b1" "orders 2024.csv" Forbidden) as Hraises by (left; reflexivity).
  destruct (load_fault_recorded_and_reraised
              sample_environ refused_client sample_event sample_context
              "b1" "orders 2024.csv" Forbidden
              sample_event_bucket sample_event_name Hraises eq_refl)
    as (_ & Hstatus & Hmessage & Houtcome).
  split; [exact Hraises|].
  split; [exact Hstatus|].
  split; [exact Hmessage|].
  apply (Houtcome []). reflexivity.
Defined.

(** C3, as stated, fails when the insert call raises: a handler that
    would return normally raises the fault of the insert, and a handler
    that is propagating the fault of the submission raises the fault of
    the insert in its place; no line is logged for it. *)
Lemma audit_insert_fault_counterexample :
  outcome (invoke sample_environ quiet_client sample_event sample_context) = Ret () ∧
  outcome (invoke sample_environ unaudited_client sample_event sample_context) =
    Raise NotFound ∧
  outcome (invoke sample_environ refused_client sample_event sample_context) =
    Raise Forbidden ∧
  outcome (invoke sample_environ refused_unaudited_client sample_event sample_context) =
    Raise NotFound ∧
  last (effects (invoke sample_environ unaudited_client sample_event sample_context)) =
    Some (InsertRowsJson "p.d.audit"
            [metadata (invoke sample_environ unaudited_client sample_event sample_context)]).
Proof. repeat split; by vm_compute. Qed.

Lemma audit_row_errors_are_logged_only_witness :
  outcome (invoke sample_environ audit_row_error_client sample_event sample_context) =
    Ret () ∧
  effects (invoke sample_environ audit_row_error_client sample_event sample_context) =
    effects (invoke sample_environ quiet_client sample_event sample_context) ++
    [LoggingError
       "Failed to log event metadata: [{'index': 0, 'errors': [{'reason': 'invalid'}]}]"].
Proof.
  destruct (audit_row_errors_are_logged_only
              sample_environ quiet_client sample_event sample_context
              "b1" "orders 2024.csv"
              [{| repr := "{'index': 0, 'errors': [{'reason': 'invalid'}]}" |}] NotFound
              sample_event_bucket sample_event_name)
    as (_ & _ & Heffects & Houtcome & _).
  split; [exact Houtcome | exact Heffects].
Defined.

Lemma destination_table_identifier_witness :
  sample_event !! "name" = Some "orders 2024.csv" ∧
  load_calls (effects (invoke sample_environ quiet_client sample_event sample_context)) =
    [("gs://b1/orders 2024.csv", "p.d.100_orders_2024", job_config)] ∧
  spec_table_segment "orders 2024.csv" = "orders_2024".
Proof.
  destruct (destination_table_identifier
              sample_environ quiet_client sample_event sample_context
              "b1" "orders 2024.csv" sample_event_bucket sample_event_name)
    as (_ & Hcalls & Hdot & _).
  split; [exact sample_event_name|].
  split; [exact Hcalls|].
  apply (Hdot "orders 2024" "csv"); reflexivity.
Defined.

Lemma load_job_configuration_witness :
  well_formed sample_event ∧
  ∃ uri table_ref cfg,
    load_calls (effects (invoke sample_environ errors_client sample_event sample_context)) =
      [(uri, table_ref, cfg)] ∧
    write_disposition cfg = WRITE_TRUNCATE.
Proof.
  split; [exact sample_event_well_formed|].
  destruct (load_job_configuration
              sample_environ errors_client sample_event sample_context
              sample_event_well_formed)
    as (uri & table_ref & cfg & Hcalls & _ & _ & _ & _ & _ & Hwrite & _).
  exists uri, table_ref, cfg. split; [exact Hcalls | exact Hwrite].
Defined.

(** C6, as stated, fails when the lookup of the destination table that
    follows the wait raises: the job completed without errors, and the
    record goes out with status "Failure" and the message of the lookup's
    fault. *)
Lemma clean_load_counterexample :
  job_completes sample_environ lookup_refused_client "b1" "orders 2024.csv" sample_job ∧
  truthy (job_errors sample_job) = false ∧
  audit_calls
    (effects (invoke sample_environ lookup_refused_client sample_event sample_context)) =
    [(audit_table_ref sample_environ,
      [metadata (invoke sample_environ lookup_refused_client sample_event sample_context)])] ∧
  metadata (invoke sample_environ lookup_refused_client sample_event sample_context)
    !! "status" = Some (PStr "Failure") ∧
  metadata (invoke sample_environ lookup_refused_client sample_event sample_context)
    !! "error_message" = Some (PStr "403 Access Denied").
Proof.
  split; [split; reflexivity|].
  split; [reflexivity|].
  repeat split; by vm_compute.
Qed.

Lemma clean_load_recorded_as_success_witness :
  job_completes sample_environ quiet_client "b1" "orders 2024.csv" sample_job ∧
  metadata (invoke sample_environ quiet_client sample_event sample_context) !! "status"
    = Some (PStr "Success") ∧
  metadata (invoke sample_environ quiet_client sample_event sample_context)
    !! "error_message" = Some PNone.
Proof.
  assert (job_completes sample_environ quiet_client "b1" "orders 2024.csv" sample_job)
    as Hjob by (split; reflexivity).
  destruct (clean_load_recorded_as_success
              sample_environ quiet_client sample_event sample_context
              "b1" "orders 2024.csv" sample_job {| num_rows := 42 |}
              sample_event_bucket sample_event_name Hjob eq_refl eq_refl)
    as (_ & Hstatus & Hmessage).
  split; [exact Hjob|]. split; [exact Hstatus | exact Hmessage].
Defined.

(** C7, as stated, fails twice. When the lookup of the destination table
    raises, the error message is that of the lookup's fault, not the
    string form of the job's errors, and the handler raises. And when the
    audit insert raises, the handler raises although the record was
    filled in as claimed. *)
Lemma job_errors_counterexample :
  job_completes sample_environ errors_lookup_refused_client
    "b1" "orders 2024.csv" job_with_errors ∧
  truthy (job_errors job_with_errors) = true ∧
  metadata (invoke sample_environ errors_lookup_refused_client sample_event sample_context)
    !! "error_message" = Some (PStr "403 Access Denied") ∧
  metadata (invoke sample_environ errors_lookup_refused_client sample_event sample_context)
    !! "error_message" ≠ Some (PStr (str_job_errors (job_errors job_with_errors))) ∧
  outcome (invoke sample_environ errors_lookup_refused_client sample_event sample_context) =
    Raise Forbidden ∧
  job_completes sample_environ errors_unaudited_client
    "b1" "orders 2024.csv" job_with_errors ∧
  outcome (invoke sample_environ errors_unaudited_client sample_event sample_context) =
    Raise NotFound.
Proof.
  split; [split; reflexivity|].
  split; [reflexivity|].
  split; [by vm_compute|].
  split; [by vm_compute|].
  split; [by vm_compute|].
  split; [split; reflexivity|].
  by vm_compute.
Qed.

Lemma job_errors_recorded_not_raised_witness :
  job_completes sample_environ errors_client "b1" "orders 2024.csv" job_with_errors ∧
  metadata (invoke sample_environ errors_client sample_event sample_context) !! "status"
    = Some (PStr "Failure") ∧
  metadata (invoke sample_environ errors_client sample_event sample_context)
    !! "error_message" =
    Some (PStr "[{'reason': 'invalid', 'message': 'Too many values in row 3'}]") ∧
  outcome (invoke sample_environ errors_client sample_event sample_context) = Ret ().
Proof.
  assert (job_completes sample_environ errors_client "b1" "orders 2024.csv" job_with_errors)
    as Hjob by (split; reflexivity).
  destruct (job_errors_recorded_not_raised
              sample_environ errors_client sample_event sample_context
              "b1" "orders 2024.csv" job_with_errors {| num_rows := 42 |}
              sample_event_bucket sample_event_name Hjob eq_refl eq_refl)
    as (_ & Hstatus & Hmessage & Houtcome).
  split; [exact Hjob|]. split; [exact Hstatus|]. split; [exact Hmessage|].
  apply (Houtcome []). reflexivity.
Defined.

(** C8, as stated, fails when the wait is left by a fault outside the
    [Exception] hierarchy: the [except] clause does not run and the record
    is sent to the audit sink with status "Pending". *)
Lemma pending_record_counterexample :
  audit_calls (effects (invoke sample_environ interrupted_client sample_event sample_context)) =
    [(audit_table_ref sample_environ,
      [metadata (invoke sample_environ interrupted_client sample_event sample_context)])] ∧
  metadata (invoke sample_environ interrupted_client sample_event sample_context) !! "status"
    = Some (PStr "Pending") ∧
  ¬ terminal (metadata (invoke sample_environ interrupted_client sample_event sample_context)
                !! "status").
Proof.
  split; [by vm_compute|].
  assert (metadata (invoke sample_environ interrupted_client sample_event sample_context)
            !! "status" = Some (PStr "Pending")) as Hpending by (by vm_compute).
  split; [exact Hpending|].
  rewrite Hpending. by intros [? | ?].
Qed.

Lemma audit_record_status_terminal_witness :
  load_fault sample_environ refused_client "b1" "orders 2024.csv" = Some Forbidden ∧
  terminal (metadata (invoke sample_environ refused_client sample_event sample_context)
              !! "status").
Proof.
  split; [reflexivity|].
  refine (proj1 (proj2 (audit_record_status_terminal
                          sample_environ refused_client sample_event sample_context
                          "b1" "orders 2024.csv" sample_event_bucket sample_event_name _))).
  intros e He. vm_compute in He. injection He as <-. reflexivity.
Defined.

(** C9, as stated, fails: with none of the three variables set, nothing
    raises; the job is loaded into "None.None.100_orders_2024", the audit
    row goes to "None.None.None", and the handler returns normally. *)
Lemma absent_configuration_counterexample :
  PROJECT_ID ∅ = None ∧ DATASET_ID ∅ = None ∧ AUDIT_TABLE_ID ∅ = None ∧
  outcome (invoke ∅ quiet_client sample_event sample_context) = Ret () ∧
  load_calls (effects (invoke ∅ quiet_client sample_event sample_context)) =
    [("gs://b1/orders 2024.csv", "None.None.100_orders_2024", job_config)] ∧
  audit_calls (effects (invoke ∅ quiet_client sample_event sample_context)) =
    [("None.None.None", [metadata (invoke ∅ quiet_client sample_event sample_context)])].
Proof. repeat split; by vm_compute. Qed.

Lemma absent_configuration_reads_None_witness :
  sample_event !! "bucket" = Some "b1" ∧
  load_calls (effects (invoke (<["DATASET_ID" := "d"]> ∅) quiet_client
                         sample_event sample_context)) =
    [("gs://b1/orders 2024.csv", "None.d.100_orders_2024", job_config)].
Proof.
  split; [exact sample_event_bucket|].
  exact (proj1 (absent_configuration_reads_None
                  (<["DATASET_ID" := "d"]> ∅) quiet_client sample_event sample_context
                  "b1" "orders 2024.csv" sample_event_bucket sample_event_name)).
Defined.

Lemma audit_record_frame_witness :
  sample_event !! "name" = Some "orders 2024.csv" ∧
  metadata (invoke sample_environ errors_client sample_event sample_context) !! "event_id"
    = Some (PStr "e-1") ∧
  metadata (invoke sample_environ errors_client sample_event sample_context) !! "file_name"
    = Some (PStr "orders 2024.csv").
Proof.
  destruct (audit_record_frame
              sample_environ errors_client sample_event sample_context
              "b1" "orders 2024.csv" sample_event_bucket sample_event_name)
    as (_ & Hid & _ & _ & _ & _ & Hfile & _).
  split; [exact sample_event_name|]. split; [exact Hid | exact Hfile].
Defined.

(** ** The derived table name *)

Module TableName.
Import PyStr PyStrFacts.

Lemma before_first_clean c s : contains c (before_first c s) = false.
Proof.
  induction s as [|c' s IH]; simpl; [done|].
  destruct (Ascii.eqb c' c) eqn:E; simpl; [done|].
  by rewrite E, IH.
Qed.

Lemma before_first_length c s :
  (String.length (before_first c s) ≤ String.length s)%nat.
Proof.
  induction s as [|c' s IH]; simpl; [done|].
  destruct (Ascii.eqb c' c); simpl; lia.
Qed.

Lemma contains_replace c old new s :
  c ≠ new → contains c s = false → contains c (replace old new s) = false.
Proof.
  intros Hnew. induction s as [|c' s IH]; simpl; [done|].
  intros [Hc Hs]%orb_false_iff. rewrite (IH Hs), orb_false_r.
  destruct (Ascii.eqb c' old); [|done].
  apply Ascii.eqb_neq. congruence.
Qed.

Lemma replace_absent old new s : contains old s = false → replace old new s = s.
Proof.
  induction s as [|c s IH]; simpl; [done|].
  intros [Hc Hs]%orb_false_iff. by rewrite Hc, (IH Hs).
Qed.

Lemma replace_before_first c old new s :
  c ≠ old → c ≠ new →
  before_first c (replace old new s) = replace old new (before_first c s).
Proof.
  intros Hold Hnew. induction s as [|c' s IH]; simpl; [done|].
  destruct (Ascii.eqb c' old) eqn:Eold.
  - apply Ascii.eqb_eq in Eold as ->.
    assert (Ascii.eqb new c = false) as -> by (apply Ascii.eqb_neq; congruence).
    assert (Ascii.eqb old c = false) as -> by (apply Ascii.eqb_neq; congruence).
    simpl. by rewrite Ascii.eqb_refl, IH.
  - destruct (Ascii.eqb c' c); simpl; [done|].
    by rewrite Eold, IH.
Qed.

Lemma replace_idempotent old new s :
  old ≠ new → replace old new (replace old new s) = replace old new s.
Proof.
  intros Hne. apply replace_absent. by apply PyStrFacts.replace_removes.
Qed.

(** [table_name_of] in one expression. *)
Lemma table_name_of_run name :
  table_name_of name = Ret (replace " " "_" (before_first "." name)).
Proof. unfold table_name_of. by rewrite PyStrFacts.index0_split. Qed.

(** X2. Deriving the table name never raises (the [[0]] on the result of
    [split] always finds an element), and the derived name holds neither
    a dot nor a space and is no longer than the object name. *)
Theorem table_name_clean name :
  ∃ table_name,
    table_name_of name = Ret table_name ∧
    contains "." table_name = false ∧
    contains " " table_name = false ∧
    (String.length table_name ≤ String.length name)%nat.
Proof.
  exists (replace " " "_" (before_first "." name)).
  split; [apply table_name_of_run|].
  split; [apply contains_replace; [done | apply before_first_clean]|].
  split; [by apply PyStrFacts.replace_removes|].
  rewrite PyStrFacts.replace_length. apply before_first_length.
Qed.

(** X4. Deriving a table name from a derived table name changes
    nothing. *)
Theorem table_name_idempotent name table_name :
  table_name_of name = Ret table_name →
  table_name_of table_name = Ret table_name.
Proof.
  rewrite !table_name_of_run. intros [= <-].
  rewrite PyStrFacts.before_first_absent
    by (apply contains_replace; [done | apply before_first_clean]).
  by rewrite replace_idempotent.
Qed.

(** Everything from the first dot on is ignored, and so is the difference
    between a space and an underscore. *)
Lemma table_name_collision pre rest1 rest2 :
  contains "." pre = false →
  table_name_of (pre +:+ String "." rest1) =
    table_name_of (replace " " "_" pre +:+ String "." rest2).
Proof.
  intros Hpre. rewrite !table_name_of_run.
  rewrite PyStrFacts.before_first_app by done.
  rewrite PyStrFacts.before_first_app by (by apply contains_replace).
  by rewrite replace_idempotent.
Qed.

(** A name that is empty or starts with a dot has the empty table name. *)
Lemma table_name_empty name :
  name = EmptyString ∨ (∃ rest, name = String "." rest) →
  table_name_of name = Ret EmptyString.
Proof. intros [-> | [rest ->]]; by rewrite table_name_of_run. Qed.

Lemma join_cons sep c seg segs :
  join sep (String c seg :: segs) = String c (join sep (seg :: segs)).
Proof. by destruct segs. Qed.

(** X15. [split] loses nothing: there is one piece more than there are
    separators, no piece holds the separator, and joining the pieces with
    the separator gives the string back. *)
Theorem split_join sep s :
  length (split sep s) = S (count_char sep s) ∧
  Forall (λ seg, contains sep seg = false) (split sep s) ∧
  join (String sep EmptyString) (split sep s) = s.
Proof.
  induction s as [|c s (Hlen & Hall & Hjoin)].
  { repeat split. by constructor. }
  destruct (split_head sep s) as [segs Hsplit].
  cbn [split count_char]. rewrite Hsplit in *.
  destruct (Ascii.eqb c sep) eqn:E.
  - apply Ascii.eqb_eq in E as ->.
    split; [cbn [length] in *; lia|].
    split; [by constructor|].
    change (String sep (join (String sep EmptyString) (before_first sep s :: segs))
            = String sep s).
    by rewrite Hjoin.
  - split; [cbn [length] in *; lia|].
    inversion Hall as [|? ? Hseg Hsegs]; subst.
    split; [constructor; [cbn [contains]; by rewrite E, Hseg | done]|].
    by rewrite join_cons, Hjoin.
Qed.

End TableName.

(** ** Further behaviour of the handler *)

Lemma client_calls_app t1 t2 : client_calls (t1 ++ t2) = client_calls t1 ++ client_calls t2.
Proof.
  induction t1 as [|ev t1 IH]; [done|].
  destruct ev; simpl; by rewrite ?IH.
Qed.

Lemma error_lines_app t1 t2 : error_lines (t1 ++ t2) = error_lines t1 ++ error_lines t2.
Proof.
  induction t1 as [|ev t1 IH]; [done|].
  destruct ev; simpl; by rewrite ?IH.
Qed.

Lemma initial_metadata_dom context b n : dom (initial_metadata context b n) = audit_keys.
Proof.
  unfold initial_metadata, audit_keys.
  rewrite !dom_insert_L, dom_empty_L. set_solver.
Qed.

Section behaviour.

Variable environ : gmap string string.
Variable bq : Client.
Variable event : gmap string string.
Variable context : Context.

Local Abbreviation run := (invoke environ bq event context).

(** X1. An event without [bucket], or without [name], stops the handler
    at its first lines with a [KeyError] for the first key missing
    ([bucket] is read first): nothing is logged, no load job is
    submitted and no audit row is written. *)
Theorem missing_key_stops_before_audit :
  event !! "bucket" = None ∨ event !! "name" = None →
  run = mkRun (Raise (KeyError (match event !! "bucket" with
                                | None => "bucket"
                                | Some _ => "name"
                                end)))
              ∅ [] ∧
  audit_calls (effects run) = [] ∧
  load_calls (effects run) = [].
Proof.
  intros Hmissing.
  assert (run = mkRun (Raise (KeyError (match event !! "bucket" with
                                        | None => "bucket"
                                        | Some _ => "name"
                                        end))) ∅ []) as Hrun.
  { destruct (event !! "bucket") as [b|] eqn:Hb.
    - destruct Hmissing as [? | Hn]; [done|].
      by apply (invoke_no_name environ bq event context b).
    - by apply invoke_no_bucket. }
  by rewrite Hrun.
Qed.

Lemma invoke_record bucket_name file_name :
  event !! "bucket" = Some bucket_name →
  event !! "name" = Some file_name →
  metadata run =
    match load_fault environ bq bucket_name file_name with
    | Some e =>
        if is_Exception e
        then <["error_message" := PStr (exc_str e)]>
               (<["status" := PStr "Failure"]>
                  (initial_metadata context bucket_name file_name))
        else initial_metadata context bucket_name file_name
    | None =>
        match load_response environ bq bucket_name file_name with
        | Ret load_job =>
            if truthy (job_errors load_job)
            then <["error_message" := PStr (str_job_errors (job_errors load_job))]>
                   (<["status" := PStr "Failure"]>
                      (initial_metadata context bucket_name file_name))
            else <["status" := PStr "Success"]>
                   (initial_metadata context bucket_name file_name)
        | Raise _ => initial_metadata context bucket_name file_name
        end
    end.
Proof.
  intros Hb Hn.
  by rewrite (invoke_metadata environ bq event context _ _ Hb Hn), try_statement_metadata.
Qed.

(** Status and error message of the final record, by what the client
    answered. *)
Lemma invoke_status_message bucket_name file_name :
  event !! "bucket" = Some bucket_name →
  event !! "name" = Some file_name →
  (metadata run !! "status", metadata run !! "error_message") =
    match load_fault environ bq bucket_name file_name with
    | Some e =>
        if is_Exception e
        then (Some (PStr "Failure"), Some (PStr (exc_str e)))
        else (Some (PStr "Pending"), Some PNone)
    | None =>
        match load_response environ bq bucket_name file_name with
        | Ret load_job =>
            if truthy (job_errors load_job)
            then (Some (PStr "Failure"),
                  Some (PStr (str_job_errors (job_errors load_job))))
            else (Some (PStr "Success"), Some PNone)
        | Raise _ => (Some (PStr "Pending"), Some PNone)
        end
    end.
Proof.
  intros Hb Hn. rewrite (invoke_record _ _ Hb Hn).
  pose proof (initial_metadata_lookup context bucket_name file_name)
    as (_ & _ & _ & _ & _ & _ & Hstatus & Hmessage).
  cbv zeta in Hstatus, Hmessage.
  destruct (load_fault environ bq bucket_name file_name) as [e|].
  - destruct (is_Exception e).
    + by rewrite lookup_insert_ne, !lookup_insert_eq.
    + by rewrite Hstatus, Hmessage.
  - destruct (load_response environ bq bucket_name file_name) as [job|e].
    + destruct (truthy (job_errors job)).
      * by rewrite lookup_insert_ne, !lookup_insert_eq.
      * by rewrite lookup_insert_eq, lookup_insert_ne, Hmessage.
    + by rewrite Hstatus, Hmessage.
Qed.

Lemma load_fault_None_inv b n :
  load_fault environ bq b n = None →
  ∃ job table,
    job_completes environ bq b n job ∧ lookup_response environ bq n = Ret table.
Proof.
  unfold load_fault, job_completes.
  destruct (load_response environ bq b n) as [job|e]; [|done].
  destruct (job_result job) as [[]|e] eqn:Hwait; [|done].
  destruct (lookup_response environ bq n) as [table|e]; [|done].
  intros _. by exists job, table.
Qed.

(** X6. Whatever happens, the record the handler ends with has exactly
    the eight keys of the dictionary it started from: the assignments to
    [status] and [error_message] add no key and nothing removes one. *)
Theorem audit_record_keys bucket_name file_name :
  event !! "bucket" = Some bucket_name →
  event !! "name" = Some file_name →
  audit_calls (effects run) = [(audit_table_ref environ, [metadata run])] ∧
  dom (metadata run) = audit_keys.
Proof.
  intros Hb Hn.
  split; [apply invoke_audit_calls; split; eauto|].
  rewrite (invoke_record _ _ Hb Hn).
  pose proof (initial_metadata_dom context bucket_name file_name) as Hdom.
  assert ({[ "status" ]} ∪ audit_keys = audit_keys) as Hstatus
    by (unfold audit_keys; set_solver).
  assert ({[ "error_message" ]} ∪ audit_keys = audit_keys) as Hmessage
    by (unfold audit_keys; set_solver).
  destruct (load_fault environ bq bucket_name file_name) as [e|].
  - destruct (is_Exception e); [|done].
    by rewrite !dom_insert_L, Hdom, Hstatus, Hmessage.
  - destruct (load_response environ bq bucket_name file_name) as [job|e]; [|done].
    destruct (truthy (job_errors job)).
    + by rewrite !dom_insert_L, Hdom, Hstatus, Hmessage.
    + by rewrite !dom_insert_L, Hdom, Hstatus.
Qed.

(** X7. In the final record the status is "Pending", "Success" or
    "Failure", and the error message is a string exactly when the status
    is "Failure"; otherwise it is [None]. *)
Theorem status_and_error_message_agree bucket_name file_name :
  event !! "bucket" = Some bucket_name →
  event !! "name" = Some file_name →
  (metadata (invoke environ bq event context) !! "status" = Some (PStr "Failure") ∧
   ∃ message, metadata (invoke environ bq event context) !! "error_message" = Some (PStr message)) ∨
  ((metadata (invoke environ bq event context) !! "status" = Some (PStr "Success") ∨
    metadata (invoke environ bq event context) !! "status" = Some (PStr "Pending")) ∧
   metadata (invoke environ bq event context) !! "error_message" = Some PNone).
Proof.
  intros Hb Hn.
  pose proof (invoke_status_message _ _ Hb Hn) as H.
  destruct (load_fault environ bq bucket_name file_name) as [e|].
  - destruct (is_Exception e); injection H as -> ->; [left | right]; eauto.
  - destruct (load_response environ bq bucket_name file_name) as [job|e].
    + destruct (truthy (job_errors job)); injection H as -> ->; [left | right]; eauto.
    + injection H as -> ->. right; eauto.
Qed.

(** X8. The record goes out with status "Pending" exactly when the load
    steps were left by a fault that is not an instance of [Exception]. *)
Theorem pending_iff_fault_outside_Exception bucket_name file_name :
  event !! "bucket" = Some bucket_name →
  event !! "name" = Some file_name →
  metadata run !! "status" = Some (PStr "Pending") ↔
  ∃ e, load_fault environ bq bucket_name file_name = Some e ∧ is_Exception e = false.
Proof.
  intros Hb Hn.
  pose proof (invoke_status_message _ _ Hb Hn) as H.
  destruct (load_fault environ bq bucket_name file_name) as [e|] eqn:Hfault.
  - destruct (is_Exception e) eqn:Hexc; injection H as -> _.
    + split; [done|]. intros (e0 & [= <-] & ?). congruence.
    + split; [|done]. intros _. by exists e.
  - destruct (load_fault_None_inv _ _ Hfault) as (job & table & [Hjob _] & _).
    rewrite Hjob in H.
    destruct (truthy (job_errors job)); injection H as -> _;
      (split; [done | by intros (? & ? & _)]).
Qed.

(** X9. The record goes out with status "Success" exactly when
    submission, wait and table lookup all returned and the job reports no
    errors. *)
Theorem success_iff_clean_load bucket_name file_name :
  event !! "bucket" = Some bucket_name →
  event !! "name" = Some file_name →
  metadata run !! "status" = Some (PStr "Success") ↔
  ∃ job table,
    job_completes environ bq bucket_name file_name job ∧
    lookup_response environ bq file_name = Ret table ∧
    truthy (job_errors job) = false.
Proof.
  intros Hb Hn.
  pose proof (invoke_status_message _ _ Hb Hn) as H.
  destruct (load_fault environ bq bucket_name file_name) as [e|] eqn:Hfault.
  - assert (metadata run !! "status" ≠ Some (PStr "Success")) as Hno
      by (destruct (is_Exception e); by injection H as -> _).
    split; [done|].
    intros (job & table & Hjob & Hlookup & _).
    rewrite (job_completes_fault environ bq _ _ _ Hjob), Hlookup in Hfault. done.
  - destruct (load_fault_None_inv _ _ Hfault)
      as (job & table & Hjob & Hlookup).
    pose proof Hjob as [Hload _]. rewrite Hload in H.
    destruct (truthy (job_errors job)) eqn:Herrors; injection H as -> _.
    + split; [done|].
      intros (job' & _ & [Hload' _] & _ & Herrors').
      rewrite Hload in Hload'. injection Hload' as <-. congruence.
    + split; [|done]. intros _. by exists job, table.
Qed.

(** X10. A fault of the table lookup that follows a completed job is
    handled like a fault of the load itself: the record goes out with
    status "Failure" and the message of that fault (errors the job
    reported are not recorded), and the fault reaches the caller when the
    audit insert returns. *)
Theorem lookup_fault_recorded_as_failure bucket_name file_name job e :
  event !! "bucket" = Some bucket_name →
  event !! "name" = Some file_name →
  job_completes environ bq bucket_name file_name job →
  lookup_response environ bq file_name = Raise e →
  is_Exception e = true →
  metadata run !! "status" = Some (PStr "Failure") ∧
  metadata run !! "error_message" = Some (PStr (exc_str e)) ∧
  (∀ errors, audit_response environ bq (metadata run) = Ret errors → outcome run = Raise e).
Proof.
  intros Hb Hn Hjob Hlookup Hexc.
  pose proof (job_completes_fault environ bq _ _ _ Hjob) as Hfault.
  rewrite Hlookup in Hfault.
  pose proof (invoke_status_message _ _ Hb Hn) as H.
  rewrite Hfault, Hexc in H. injection H as -> ->.
  repeat split. intros errors Haudit.
  by rewrite (invoke_outcome environ bq event context _ _ Hb Hn), Haudit, Hfault.
Qed.

(** X11. The handler returns normally exactly when no load step raised
    and the audit insert returned; a fault of the load steps is never
    swallowed. *)
Theorem returns_iff_nothing_raised bucket_name file_name :
  event !! "bucket" = Some bucket_name →
  event !! "name" = Some file_name →
  (outcome run = Ret () ↔
   load_fault environ bq bucket_name file_name = None ∧
   ∃ errors, audit_response environ bq (metadata run) = Ret errors) ∧
  (∀ e, load_fault environ bq bucket_name file_name = Some e →
        ∃ e', outcome run = Raise e').
Proof.
  intros Hb Hn.
  rewrite (invoke_outcome environ bq event context _ _ Hb Hn).
  destruct (audit_response environ bq (metadata run)) as [errors|e'].
  - destruct (load_fault environ bq bucket_name file_name) as [e|].
    + split; [split; [done | by intros [? _]] | intros ? _; eauto].
    + split; [split; [eauto | done] | done].
  - split; [split; [done | by intros [_ [? ?]]] | intros ? _; eauto].
Qed.

(** X12. A fault of the load steps that is not an instance of
    [Exception] leaves the record as it was created, and reaches the
    caller when the audit insert returns. *)
Theorem fault_outside_Exception_passes bucket_name file_name e :
  event !! "bucket" = Some bucket_name →
  event !! "name" = Some file_name →
  load_fault environ bq bucket_name file_name = Some e →
  is_Exception e = false →
  metadata run = initial_metadata context bucket_name file_name ∧
  (∀ errors, audit_response environ bq (metadata run) = Ret errors → outcome run = Raise e).
Proof.
  intros Hb Hn Hfault Hexc.
  split; [by rewrite (invoke_record _ _ Hb Hn), Hfault, Hexc|].
  intros errors Haudit.
  by rewrite (invoke_outcome environ bq event context _ _ Hb Hn), Haudit, Hfault.
Qed.

(** Case analysis on the answers of the client, for a goal about the
    run of a well-formed event. *)
Ltac answer_cases Hb Hn b n :=
  rewrite (invoke_well_formed environ bq event context b n Hb Hn);
  cbn [outcome metadata effects];
  unfold try_statement, try_except_finally, try_finally, try_except;
  rewrite load_body_run;
  unfold load_fault, load_response, lookup_response, audit_response;
  destruct (load_table_from_uri bq (uri_of b n) (destination environ n) job_config)
    as [load_job|e];
  [ destruct (job_result load_job) as [[]|e];
    [ destruct (get_table bq (destination environ n)) as [table|e];
      [ destruct (truthy (job_errors load_job)) eqn:Herrors | ] | ] | ];
  cbn [outcome metadata effects];
  try (destruct (is_Exception e) eqn:Hexc; rewrite ?load_except_run);
  cbn [outcome metadata effects];
  rewrite load_finally_run;
  match goal with
  | |- context [insert_rows_json bq ?t ?rows] =>
      destruct (insert_rows_json bq t rows) as [errors|e'] eqn:Hinsert;
      [ destruct (truthy_list errors) eqn:Hrows | ]
  end;
  cbn [outcome metadata effects].

(** X13. What the handler logs at error level: one line for a fault of
    the load steps that is an instance of [Exception] (none for a fault
    that is not), one line for errors reported by a completed job, then
    the Audit Logger's line when its insert returned row errors. *)
Theorem error_lines_logged bucket_name file_name :
  event !! "bucket" = Some bucket_name →
  event !! "name" = Some file_name →
  error_lines (effects run) =
    match load_fault environ bq bucket_name file_name with
    | Some e =>
        if is_Exception e
        then ["Failed to load data from " +:+ uri_of bucket_name file_name +:+
              " to BigQuery: " +:+ exc_str e]
        else []
    | None =>
        match load_response environ bq bucket_name file_name with
        | Ret load_job =>
            if truthy (job_errors load_job)
            then ["Load job errors: " +:+ str_job_errors (job_errors load_job)]
            else []
        | Raise _ => []
        end
    end ++ audit_error_lines (audit_response environ bq (metadata run)).
Proof.
  intros Hb Hn.
  answer_cases Hb Hn bucket_name file_name.
  all: rewrite ?Hexc, ?Herrors, ?Hinsert; cbn [audit_error_lines]; rewrite ?Hrows.
  all: by rewrite ?error_lines_app.
Qed.

(** X14. The calls to the client come in the order submit, wait, look
    up, audit insert: the wait follows a submission that returned, the
    table lookup follows a wait that returned, and the audit insert is
    always the last call. *)
Theorem client_calls_in_order bucket_name file_name :
  event !! "bucket" = Some bucket_name →
  event !! "name" = Some file_name →
  client_calls (effects run) =
    match load_response environ bq bucket_name file_name with
    | Raise _ =>
        [LoadTableFromUri (uri_of bucket_name file_name) (destination environ file_name)
                          job_config]
    | Ret load_job =>
        LoadTableFromUri (uri_of bucket_name file_name) (destination environ file_name)
                         job_config ::
        JobResult (job_id load_job) ::
        match job_result load_job with
        | Raise _ => []
        | Ret _ => [GetTable (destination environ file_name)]
        end
    end ++ [InsertRowsJson (audit_table_ref environ) [metadata run]].
Proof.
  intros Hb Hn.
  answer_cases Hb Hn bucket_name file_name.
  all: by rewrite ?client_calls_app.
Qed.

End behaviour.

(** ** Object names that share a table, and the Audit Logger on its own *)

Lemma append_empty_r s : s +:+ EmptyString = s.
Proof. induction s as [|c s IH]; [done|]. change (String c (s +:+ EmptyString) = String c s). by rewrite IH. Qed.

Lemma invoke_load_destinations environ bq event context bucket_name file_name table_name :
  event !! "bucket" = Some bucket_name →
  event !! "name" = Some file_name →
  table_name_of file_name = Ret table_name →
  load_destinations (effects (invoke environ bq event context)) =
    [table_ref_of environ table_name].
Proof.
  intros Hb Hn Hname. unfold load_destinations.
  rewrite (invoke_load_calls environ bq event context _ _ Hb Hn).
  rewrite table_name_of_spec in Hname. injection Hname as <-. done.
Qed.

(** X3. Two objects whose names agree before the first dot, up to spaces
    written as underscores, are loaded into the same destination table,
    whatever follows the first dot and whatever the bucket. *)
Theorem colliding_names_share_destination
    environ bq1 bq2 event1 event2 context1 context2 bucket1 bucket2 pre rest1 rest2 :
  event1 !! "bucket" = Some bucket1 →
  event1 !! "name" = Some (pre +:+ String "." rest1) →
  event2 !! "bucket" = Some bucket2 →
  event2 !! "name" = Some (PyStr.replace " " "_" pre +:+ String "." rest2) →
  PyStr.contains "." pre = false →
  ∃ table_ref,
    load_destinations (effects (invoke environ bq1 event1 context1)) = [table_ref] ∧
    load_destinations (effects (invoke environ bq2 event2 context2)) = [table_ref].
Proof.
  intros Hb1 Hn1 Hb2 Hn2 Hpre.
  exists (table_ref_of environ (PyStr.replace " " "_" pre)).
  split.
  - apply (invoke_load_destinations _ _ _ _ _ _ _ Hb1 Hn1).
    rewrite TableName.table_name_of_run.
    by rewrite PyStrFacts.before_first_app.
  - apply (invoke_load_destinations _ _ _ _ _ _ _ Hb2 Hn2).
    rewrite <- (TableName.table_name_collision pre rest1 rest2 Hpre).
    rewrite TableName.table_name_of_run.
    by rewrite PyStrFacts.before_first_app.
Qed.

(** X5. An object whose name is empty or starts with a dot has the empty
    table name: its load job goes to the bare [{project}.{dataset}.100_]. *)
Theorem leading_dot_gives_bare_prefix environ bq event context bucket_name file_name :
  event !! "bucket" = Some bucket_name →
  event !! "name" = Some file_name →
  file_name = EmptyString ∨ (∃ rest, file_name = String "." rest) →
  load_destinations (effects (invoke environ bq event context)) =
    [PyStr.fmt (PROJECT_ID environ) +:+ "." +:+ PyStr.fmt (DATASET_ID environ) +:+ ".100_"].
Proof.
  intros Hb Hn Hname.
  rewrite (invoke_load_destinations _ _ _ _ _ _ _ Hb Hn (TableName.table_name_empty _ Hname)).
  unfold table_ref_of.
  assert (".100_" +:+ EmptyString = ".100_") as -> by apply append_empty_r.
  done.
Qed.

(** X16. The Audit Logger, on any record: it leaves the record alone,
    makes exactly one client call, the insert of that one row, logs one
    error line exactly when the insert returned a non-empty error list,
    and raises only what the insert raised. *)
Theorem audit_logger_contract environ bq event_metadata σ :
  metadata (log_event_to_audit_table environ bq event_metadata σ) = σ ∧
  client_calls (effects (log_event_to_audit_table environ bq event_metadata σ)) =
    [InsertRowsJson (audit_table_ref environ) [event_metadata]] ∧
  error_lines (effects (log_event_to_audit_table environ bq event_metadata σ)) =
    audit_error_lines (insert_rows_json bq (audit_table_ref environ) [event_metadata]) ∧
  outcome (log_event_to_audit_table environ bq event_metadata σ) =
    match insert_rows_json bq (audit_table_ref environ) [event_metadata] with
    | Ret _ => Ret ()
    | Raise e => Raise e
    end.
Proof.
  unfold log_event_to_audit_table.
  cbv [mbind M_bind bind call mret M_ret ret logging_error].
  destruct (insert_rows_json bq (audit_table_ref environ) [event_metadata])
    as [errors|e]; cbn [outcome metadata effects]; [|done].
  unfold audit_error_lines. by destruct (truthy_list errors).
Qed.

(** ** The further properties on concrete invocations *)

Lemma missing_key_stops_before_audit_witness :
  (<["name" := "orders 2024.csv"]> ∅ : gmap string string) !! "bucket" = None ∧
  outcome (invoke sample_environ quiet_client (<["name" := "orders 2024.csv"]> ∅)
                  sample_context) = Raise (KeyError "bucket") ∧
  audit_calls (effects (invoke sample_environ quiet_client (<["name" := "orders 2024.csv"]> ∅)
                               sample_context)) = [].
Proof.
  assert ((<["name" := "orders 2024.csv"]> ∅ : gmap string string) !! "bucket" = None)
    as Hb by reflexivity.
  destruct (missing_key_stops_before_audit
              sample_environ quiet_client (<["name" := "orders 2024.csv"]> ∅) sample_context
              (or_introl Hb)) as (Hrun & Haudit & _).
  split; [exact Hb|]. split; [|exact Haudit].
  rewrite Hrun. reflexivity.
Defined.

Lemma table_name_idempotent_witness :
  table_name_of "Sales Q1.csv" = Ret "Sales_Q1" ∧ table_name_of "Sales_Q1" = Ret "Sales_Q1".
Proof.
  assert (table_name_of "Sales Q1.csv" = Ret "Sales_Q1") as Hname by reflexivity.
  split; [exact Hname|].
  exact (TableName.table_name_idempotent "Sales Q1.csv" "Sales_Q1" Hname).
Defined.

Lemma colliding_names_share_destination_witness :
  ∃ table_ref,
    load_destinations (effects (invoke sample_environ quiet_client sample_event sample_context))
      = [table_ref] ∧
    load_destinations
      (effects (invoke sample_environ errors_client
                  (<["bucket" := "b2"]> (<["name" := "orders_2024.v2.json"]> ∅))
                  sample_context)) = [table_ref].
Proof.
  apply (colliding_names_share_destination
           sample_environ quiet_client errors_client sample_event
           (<["bucket" := "b2"]> (<["name" := "orders_2024.v2.json"]> ∅))
           sample_context sample_context "b1" "b2" "orders 2024" "csv" "v2.json");
    reflexivity.
Defined.

Lemma leading_dot_gives_bare_prefix_witness :
  load_destinations
    (effects (invoke sample_environ quiet_client
                (<["bucket" := "b1"]> (<["name" := ".keep"]> ∅)) sample_context))
    = ["p.d.100_"].
Proof.
  apply (leading_dot_gives_bare_prefix
           sample_environ quiet_client
           (<["bucket" := "b1"]> (<["name" := ".keep"]> ∅)) sample_context "b1" ".keep");
    [reflexivity | reflexivity | right; by exists "keep"].
Defined.

Lemma audit_record_keys_witness :
  sample_event !! "bucket" = Some "b1" ∧
  dom (metadata (invoke sample_environ refused_client sample_event sample_context)) =
    audit_keys.
Proof.
  split; [exact sample_event_bucket|].
  exact (proj2 (audit_record_keys
                  sample_environ refused_client sample_event sample_context
                  "b1" "orders 2024.csv" sample_event_bucket sample_event_name)).
Defined.

Lemma status_and_error_message_agree_witness :
  sample_event !! "name" = Some "orders 2024.csv" ∧
  ((metadata (invoke sample_environ errors_client sample_event sample_context) !! "status"
      = Some (PStr "Failure") ∧
    ∃ message,
      metadata (invoke sample_environ errors_client sample_event sample_context)
        !! "error_message" = Some (PStr message)) ∨
   ((metadata (invoke sample_environ errors_client sample_event sample_context) !! "status"
       = Some (PStr "Success") ∨
     metadata (invoke sample_environ errors_client sample_event sample_context) !! "status"
       = Some (PStr "Pending")) ∧
    metadata (invoke sample_environ errors_client sample_event sample_context)
      !! "error_message" = Some PNone)).
Proof.
  split; [exact sample_event_name|].
  exact (status_and_error_message_agree
           sample_environ errors_client sample_event sample_context
           "b1" "orders 2024.csv" sample_event_bucket sample_event_name).
Defined.

Lemma pending_iff_fault_outside_Exception_witness :
  load_fault sample_environ interrupted_client "b1" "orders 2024.csv"
    = Some KeyboardInterrupt ∧
  metadata (invoke sample_environ interrupted_client sample_event sample_context) !! "status"
    = Some (PStr "Pending").
Proof.
  assert (load_fault sample_environ interrupted_client "b1" "orders 2024.csv"
            = Some KeyboardInterrupt) as Hfault by reflexivity.
  split; [exact Hfault|].
  apply (pending_iff_fault_outside_Exception
           sample_environ interrupted_client sample_event sample_context
           "b1" "orders 2024.csv" sample_event_bucket sample_event_name).
  exists KeyboardInterrupt. split; [exact Hfault | reflexivity].
Defined.

Lemma success_iff_clean_load_witness :
  job_completes sample_environ quiet_client "b1" "orders 2024.csv" sample_job ∧
  metadata (invoke sample_environ quiet_client sample_event sample_context) !! "status"
    = Some (PStr "Success").
Proof.
  assert (job_completes sample_environ quiet_client "b1" "orders 2024.csv" sample_job)
    as Hjob by (split; reflexivity).
  split; [exact Hjob|].
  apply (success_iff_clean_load
           sample_environ quiet_client sample_event sample_context
           "b1" "orders 2024.csv" sample_event_bucket sample_event_name).
  exists sample_job, {| num_rows := 42 |}. split; [exact Hjob|]. split; reflexivity.
Defined.

Lemma lookup_fault_recorded_as_failure_witness :
  job_completes sample_environ errors_lookup_refused_client
    "b1" "orders 2024.csv" job_with_errors ∧
  metadata (invoke sample_environ errors_lookup_refused_client sample_event sample_context)
    !! "error_message" = Some (PStr "403 Access Denied") ∧
  outcome (invoke sample_environ errors_lookup_refused_client sample_event sample_context)
    = Raise Forbidden.
Proof.
  assert (job_completes sample_environ errors_lookup_refused_client
            "b1" "orders 2024.csv" job_with_errors) as Hjob by (split; reflexivity).
  destruct (lookup_fault_recorded_as_failure
              sample_environ errors_lookup_refused_client sample_event sample_context
              "b1" "orders 2024.csv" job_with_errors Forbidden
              sample_event_bucket sample_event_name Hjob eq_refl eq_refl)
    as (_ & Hmessage & Houtcome).
  split; [exact Hjob|]. split; [exact Hmessage|].
  apply (Houtcome []). reflexivity.
Defined.

Lemma returns_iff_nothing_raised_witness :
  load_fault sample_environ refused_client "b1" "orders 2024.csv" = Some Forbidden ∧
  ∃ e', outcome (invoke sample_environ refused_client sample_event sample_context) = Raise e'.
Proof.
  split; [reflexivity|].
  apply (proj2 (returns_iff_nothing_raised
                  sample_environ refused_client sample_event sample_context
                  "b1" "orders 2024.csv" sample_event_bucket sample_event_name)
               Forbidden).
  reflexivity.
Defined.

Lemma fault_outside_Exception_passes_witness :
  is_Exception KeyboardInterrupt = false ∧
  metadata (invoke sample_environ interrupted_client sample_event sample_context) =
    initial_metadata sample_context "b1" "orders 2024.csv" ∧
  outcome (invoke sample_environ interrupted_client sample_event sample_context) =
    Raise KeyboardInterrupt.
Proof.
  destruct (fault_outside_Exception_passes
              sample_environ interrupted_client sample_event sample_context
              "b1" "orders 2024.csv" KeyboardInterrupt
              sample_event_bucket sample_event_name eq_refl eq_refl)
    as (Hrecord & Houtcome).
  split; [reflexivity|]. split; [exact Hrecord|].
  apply (Houtcome []). reflexivity.
Defined.

Lemma error_lines_logged_witness :
  sample_event !! "bucket" = Some "b1" ∧
  error_lines (effects (invoke sample_environ refused_client sample_event sample_context)) =
    ["Failed to load data from gs://b1/orders 2024.csv to BigQuery: 403 Access Denied"].
Proof.
  split; [exact sample_event_bucket|].
  exact (error_lines_logged
           sample_environ refused_client sample_event sample_context
           "b1" "orders 2024.csv" sample_event_bucket sample_event_name).
Defined.

Lemma client_calls_in_order_witness :
  sample_event !! "name" = Some "orders 2024.csv" ∧
  client_calls (effects (invoke sample_environ interrupted_client sample_event sample_context))
    = [LoadTableFromUri "gs://b1/orders 2024.csv" "p.d.100_orders_2024" job_config;
       JobResult "job-3";
       InsertRowsJson "p.d.audit"
         [metadata (invoke sample_environ interrupted_client sample_event sample_context)]].
Proof.
  split; [exact sample_event_name|].
  exact (client_calls_in_order
           sample_environ interrupted_client sample_event sample_context
           "b1" "orders 2024.csv" sample_event_bucket sample_event_name).
Defined.
